(** * torznab-monitor: feed polling, de-duplication and field mapping

    A shallow embedding of [src/main.py] (class [TorznabMonitor]) and of
    [src/configurations/notification_config.py] (class
    [NotificationConfig]), with the properties of the specification proved
    about it.

    Conventions.
    - A Python [str] is a [string]; [Optional[str]] is [option string].
    - A Python [set] of strings is a [gset string]; the order in which
      Python iterates over it is a parameter (class [SetOrder]).
    - A function that can raise returns a [result]; [try]/[except] is
      [try_except].
    - The file system is a finite map from path to content; logging is
      not modelled. *)

From Stdlib Require Import Ascii.
From stdpp Require Import gmap strings list sets pretty.

Open Scope string_scope.

#[local] Set Warnings "-clear-no-such-hyp".

(** ** Python exceptions and results *)

Module Py.

Inductive exn : Type :=
  | KeyError
  | ValueError
  | TypeError
  | SyntaxError
  | OSError
  | FileNotFoundError
  | JSONDecodeError
  | RequestException
  | ParseError.

Inductive result (A : Type) : Type :=
  | Ok (a : A)
  | Raise (e : exn).

Arguments Ok {A} a.
Arguments Raise {A} e.

Definition bind {A B : Type} (m : result A) (k : A → result B) : result B :=
  match m with
  | Ok a => k a
  | Raise e => Raise e
  end.

(** [try: body except Exception: handler] *)
Definition try_except {A : Type} (body : result A) (handler : exn → A) : A :=
  match body with
  | Ok a => a
  | Raise e => handler e
  end.

(** *** The [str] methods the program calls *)

(** [c in s] for a one-character [c]. *)
Fixpoint contains (c : ascii) (s : string) : bool :=
  match s with
  | EmptyString => false
  | String a s' => if Ascii.eqb a c then true else contains c s'
  end.

(** The text before and after the first occurrence of [sep], when there
    is one. *)
Fixpoint partition (sep : ascii) (s : string) : option (string * string) :=
  match s with
  | EmptyString => None
  | String a s' =>
      if Ascii.eqb a sep then Some (EmptyString, s')
      else match partition sep s' with
           | Some (before, after) => Some (String a before, after)
           | None => None
           end
  end.

(** [s.split(sep, 1)] *)
Definition split1 (sep : ascii) (s : string) : list string :=
  match partition sep s with
  | Some (before, after) => [before; after]
  | None => [s]
  end.

(** [s.split(sep)] *)
Fixpoint split (sep : ascii) (s : string) : list string :=
  match s with
  | EmptyString => [EmptyString]
  | String a s' =>
      if Ascii.eqb a sep then EmptyString :: split sep s'
      else match split sep s' with
           | piece :: rest => String a piece :: rest
           | [] => [String a EmptyString]
           end
  end.

(** [s.startswith(p)] *)
Definition startswith (p s : string) : bool := String.prefix p s.

(** [a, b = l]: unpacking raises [ValueError] unless [l] has two
    elements. *)
Definition unpack2 (l : list string) : result (string * string) :=
  match l with
  | [a; b] => Ok (a, b)
  | _ => Raise ValueError
  end.

(** [sep.join(l)] for a one-character [sep] (used in statements only). *)
Definition join (sep : ascii) (l : list string) : string :=
  String.concat (String sep EmptyString) l.

End Py.

Import Py.

Notation "'let*' x ':=' m 'in' k" := (Py.bind m (λ x, k))
  (at level 10, x name, m at level 100, k at level 200).

(** ** [TorznabMonitor._clean_guid] *)

(** The body of the [try] block of [_clean_guid]. *)
Definition clean_guid_body (guid : string) : result string :=
  let* parts := unpack2 (split1 "?"%char guid) in
  let '(base_url, params) := parts in
  match List.find (startswith "id=") (split "&"%char params) with
  | Some param => Ok (base_url +:+ "?" +:+ param)
  | None => Ok base_url
  end.

Definition _clean_guid (guid : string) : string :=
  try_except (clean_guid_body guid) (λ _, guid).

(** ** [xml.etree.ElementTree]: the part of the library the program uses *)

Module ET.

(** An element: tag, attributes, text and children. *)
#[warnings="-register-all"] Inductive Element : Type :=
  | mkElement (tag : string) (attrib : list (string * string))
              (text : option string) (children : list Element).

Definition tag (e : Element) : string :=
  match e with mkElement t _ _ _ => t end.
Definition attrib (e : Element) : list (string * string) :=
  match e with mkElement _ a _ _ => a end.
Definition text (e : Element) : option string :=
  match e with mkElement _ _ t _ => t end.
Definition children (e : Element) : list Element :=
  match e with mkElement _ _ _ c => c end.

(** [e.attrib.get(key)] (also [e.get(key)]) *)
Definition get (e : Element) (key : string) : option string :=
  snd <$> List.find (λ kv, String.eqb (fst kv) key) (attrib e).

(** [e.iter()]: the element and its descendants, in document order. *)
Fixpoint iter (e : Element) : list Element :=
  match e with
  | mkElement _ _ _ cs => e :: flat_map iter cs
  end.

(** The elements [.//] ranges over: every descendant, not the element
    itself. *)
Definition descendants (e : Element) : list Element :=
  flat_map iter (children e).

(** [e.find(t)] for a plain tag [t]: the first child with that tag. *)
Definition find_tag (e : Element) (t : string) : option Element :=
  List.find (λ c, String.eqb (tag c) t) (children e).

(** The test of the step [{*}name]: the tag is [name], in any namespace
    or in none ([el_tag == name or el_tag[-len(suffix):] == suffix] with
    [suffix = '}' + name]). *)
Definition tag_any_ns (name el_tag : string) : bool :=
  let suffix := String "}" name in
  String.eqb el_tag name
  || String.eqb (String.substring (String.length el_tag - String.length suffix)
                                  (String.length suffix) el_tag) suffix.

(** What [.//{*}attr[@name='n']] selects when [n] is taken literally. *)
Definition attr_elements (e : Element) (n : string) : list Element :=
  List.filter (λ d, tag_any_ns "attr" (tag d) && bool_decide (get d "name" = Some n))
              (descendants e).

(** A path that is one plain tag name: letters, digits, [_] and [-]. *)
Definition plain_char (c : ascii) : bool :=
  let n := nat_of_ascii c in
  (Nat.leb 97 n && Nat.leb n 122) || (Nat.leb 65 n && Nat.leb n 90)
  || (Nat.leb 48 n && Nat.leb n 57) || Nat.eqb n 95 || Nat.eqb n 45.

Definition plain_tag (p : string) : bool :=
  negb (String.eqb p "") && forallb plain_char (String.list_ascii_of_string p).

(** ElementPath on the paths this development does not interpret: the
    library may return elements or raise ([SyntaxError] on a malformed
    path). *)
Class XPath : Type := {
  xpath_find : Element → string → result (option Element);
  xpath_findall : Element → string → result (list Element)
}.

Section paths.
Context {xpath : XPath}.

(** [e.find(path)]. A path that is not a string raises [TypeError]; a
    plain tag selects the first child with that tag. *)
Definition find (e : Element) (path : option string) : result (option Element) :=
  match path with
  | None => Raise TypeError
  | Some p => if plain_tag p then Ok (find_tag e p) else xpath_find e p
  end.

(** [e.findall(f".//{{*}}attr[@name='{n}']")]. The name is pasted between
    apostrophes: one that contains an apostrophe changes the path. *)
Definition findall_attr (e : Element) (n : string) : result (list Element) :=
  if contains "'"%char n
  then xpath_findall e (".//{*}attr[@name='" +:+ n +:+ "']")
  else Ok (attr_elements e n).

End paths.

(** An ElementPath that rejects every path outside the interpreted
    fragment (as the library does for an absolute path such as
    ["/title"]). *)
Definition strict_xpath : XPath :=
  {| xpath_find := λ _ _, Raise SyntaxError;
     xpath_findall := λ _ _, Raise SyntaxError |}.

End ET.

Import ET.

(** [str(x)] inside an f-string, for an [Optional[str]]. *)
Definition format_opt (o : option string) : string := default "None" o.

(** ** [configurations/notification_config.py] *)

(** A value of the notification payload: [None], a string, or the list
    the ['all'] selection returns. *)
Inductive value : Type :=
  | VNone
  | VStr (s : string)
  | VList (l : list (option string)).

Definition of_option (o : option string) : value :=
  match o with
  | Some s => VStr s
  | None => VNone
  end.

Module NotificationMapping.

(** The dataclass [NotificationMapping]. *)
Record t : Type := mk {
  type : string;
  path : option string;
  name : option string;
  value : option string;
  select : option string
}.

#[global] Instance eq_dec : EqDecision t.
Proof. solve_decision. Defined.

End NotificationMapping.

Module NotificationConfig.

(** [self.mappings]: mapping name to the fields of the mapping, in the
    order of the file. *)
Record t : Type := mk {
  mappings : gmap string (list (string * NotificationMapping.t))
}.

Section extract.
Context {xpath : XPath}.

Definition _extract_torznab_attr (item : Element) (attr_name : option string)
    (select : option string) : value :=
  let values :=
    try_except
      (let* attrs := findall_attr item (format_opt attr_name) in
       Ok ((λ attr, get attr "value") <$> attrs))
      (λ _, []) in
  match values with
  | [] => VNone
  | first :: _ =>
      if bool_decide (select = Some "first") then of_option first else VList values
  end.

Definition _extract_xml_tag (item : Element) (path : option string) : option string :=
  try_except
    (let* element := find item path in
     Ok (match element with
           | Some el => text el
           | None => None
           end))
    (λ _, None).

(** The [if]/[elif] chain of the loop body: the value assigned to
    [data[field]], or [None] when no branch is taken. *)
Definition field_value (item : Element) (field_mapping : NotificationMapping.t)
    : result (option value) :=
  if String.eqb (NotificationMapping.type field_mapping) "static" then
    Ok (Some (of_option (NotificationMapping.value field_mapping)))
  else if String.eqb (NotificationMapping.type field_mapping) "xml_tag" then
    Ok (Some (of_option
      (_extract_xml_tag item (NotificationMapping.path field_mapping))))
  else if String.eqb (NotificationMapping.type field_mapping) "torznab_attr" then
    Ok (Some (_extract_torznab_attr item
      (NotificationMapping.name field_mapping)
      (NotificationMapping.select field_mapping)))
  else Ok None.

(** One iteration of [for field, field_mapping in mapping.items()], with
    its [try]/[except]. *)
Definition extract_field (item : Element) (data : gmap string value)
    (entry : string * NotificationMapping.t) : gmap string value :=
  let '(field, field_mapping) := entry in
  match field_value item field_mapping with
  | Ok (Some v) => <[field := v]> data
  | Ok None => data
  | Raise _ => <[field := VNone]> data
  end.

(** What one field contributes to the payload, given the entry of the
    payload before it (used in statements only). *)
Definition field_outcome (item : Element) (fm : NotificationMapping.t)
    (before : option value) : option value :=
  match field_value item fm with
  | Ok (Some v) => Some v
  | Ok None => before
  | Raise _ => Some VNone
  end.

Definition get_notification_data (self : t) (item : Element) (mapping_name : string)
    : result (gmap string value) :=
  match mappings self !! mapping_name with
  | None => Raise KeyError
  | Some mapping => Ok (fold_left (extract_field item) mapping ∅)
  end.

End extract.

End NotificationConfig.

(** ** [configurations/torznab_config.py] *)

Module TorznabEndpoint.

(** The dataclass [TorznabEndpoint]. *)
Record t : Type := mk {
  name : string;
  url : string;
  categories : gset string;
  poll_interval : Z
}.

End TorznabEndpoint.

(** ** The environment of the monitor *)

(** What a seen file holds: text that [json.load] rejects, a JSON
    document that cannot be iterated (a number, a boolean, [null]), or a
    JSON array of strings (what [_save_seen] writes). *)
Inductive content : Type :=
  | Garbled
  | Scalar
  | Stored (l : list string).

(** The files under [/data], and whether they can be written or removed.
    A write either replaces the whole file or, when [open] raises, leaves
    it as it was. *)
Record World : Type := mkWorld {
  files : gmap string content;
  writable : bool
}.

(** [json.load(open(path, 'r'))], and the iteration over the document
    that follows it: an array yields its strings, a scalar raises
    [TypeError]. *)
Definition read_json (w : World) (path : string) : result (list string) :=
  match files w !! path with
  | None => Raise FileNotFoundError
  | Some Garbled => Raise JSONDecodeError
  | Some Scalar => Raise TypeError
  | Some (Stored l) => Ok l
  end.

(** [json.dump(l, open(path, 'w'))] *)
Definition write_json (w : World) (path : string) (l : list string) : result World :=
  if writable w
  then Ok {| files := <[path := Stored l]> (files w); writable := writable w |}
  else Raise OSError.

(** [path.unlink()] *)
Definition unlink (w : World) (path : string) : result World :=
  if writable w
  then Ok {| files := delete path (files w); writable := writable w |}
  else Raise OSError.

(** [list(s)] for a Python set [s]: every member once, in an order the
    program does not control (it follows the hashes of the strings, not
    the order of insertion). The order is taken as a function of the
    members. *)
Class SetOrder : Type := {
  set_list : gset string → list string;
  set_list_perm : ∀ s, set_list s ≡ₚ elements s
}.

(** What the monitor hands to the notification service for one item. *)
Inductive event : Type :=
  | Sent (item : Element) (data : gmap string value)
  | Dropped (item : Element) (e : exn).

Definition event_item (ev : event) : Element :=
  match ev with
  | Sent item _ => item
  | Dropped item _ => item
  end.

(** ** [main.py]: class [TorznabMonitor] *)

Module TorznabMonitor.

(** The part of [self] the poll cycle reads. *)
Record t : Type := mk {
  notification_config : NotificationConfig.t
}.

(** [l[-n:]] for [0 < n] *)
Definition last_n (n : nat) (l : list string) : list string :=
  drop (length l - n) l.

Definition _get_seen_file_path (mapping_name : string) : string :=
  "/data/seen_" +:+ mapping_name +:+ ".json".

Definition _load_seen (w : World) (mapping_name : string) : result (gset string) :=
  let seen_file := _get_seen_file_path mapping_name in
  match
    (let* guids := read_json w seen_file in
     Ok (list_to_set (_clean_guid <$> guids) : gset string))
  with
  | Raise FileNotFoundError | Raise JSONDecodeError => Ok ∅
  | r => r
  end.

Definition _clear_seen (w : World) (mapping_name : string) : result World :=
  let seen_file := _get_seen_file_path mapping_name in
  if bool_decide (is_Some (files w !! seen_file))
  then unlink w seen_file
  else Ok w.

Section monitor.
Context {xpath : XPath} {order : SetOrder}.

Definition _save_seen (w : World) (seen : gset string) (mapping_name : string)
    : result World :=
  let seen_file := _get_seen_file_path mapping_name in
  let seen_list := set_list seen in
  let seen_list :=
    if Nat.ltb 200 (length seen_list) then last_n 200 seen_list else seen_list in
  match write_json w seen_file seen_list with
  | Raise OSError => Ok w
  | r => r
  end.

Definition _extract_torznab_attr (item : Element) (attr_name : string)
    : gset (option string) :=
  try_except
    (let* attrs := findall_attr item attr_name in
     Ok (list_to_set ((λ attr, get attr "value") <$> attrs)))
    (λ _, ∅).

Definition _extract_categories (item : Element) : gset (option string) :=
  _extract_torznab_attr item "category".

(** [categories & item_categories] *)
Definition intersection (categories : gset string)
    (item_categories : gset (option string)) : gset string :=
  filter (λ c, Some c ∈ item_categories) categories.

(** [item.find('guid').text if item.find('guid') is not None else None] *)
Definition guid_of (item : Element) : option string :=
  match find_tag item "guid" with
  | Some g => text g
  | None => None
  end.

(** One iteration of the loop of [_process_items] on the pair
    [(seen, matching_items)]. *)
Definition process_item (categories : gset string)
    (st : gset string * list Element) (item : Element)
    : gset string * list Element :=
  let '(seen, matching_items) := st in
  match guid_of item with
  | Some guid =>
      if String.eqb guid "" then st
      else
        let cleaned_guid := _clean_guid guid in
        if bool_decide (cleaned_guid ∈ seen) then st
        else
          let item_categories := _extract_categories item in
          if bool_decide (intersection categories item_categories ≠ ∅)
          then (seen ∪ {[cleaned_guid]}, (matching_items ++ [item])%list)
          else st
  | None => st
  end.

(** The identity of an entry: its cleaned GUID, when it has a GUID that
    is not empty (used in statements only). *)
Definition identity (item : Element) : option string :=
  match guid_of item with
  | Some guid => if String.eqb guid "" then None else Some (_clean_guid guid)
  | None => None
  end.

(** The category test of the loop, as a boolean (used in statements
    only). *)
Definition category_match (categories : gset string) (item : Element) : bool :=
  bool_decide (intersection categories (_extract_categories item) ≠ ∅).

(** The identity an entry contributes to a seen set: its own, when its
    categories match (used in statements only). *)
Definition seed (categories : gset string) (item : Element) : option string :=
  if category_match categories item then identity item else None.

(** The list [_save_seen] writes, from the list of the set (used in
    statements only). *)
Definition capped (l : list string) : list string :=
  if Nat.ltb 200 (length l) then last_n 200 l else l.

(** The files after [_save_seen]: the capped list is in the seen file
    when the files can be written, and nothing has changed when they
    cannot (used in statements only). *)
Definition saved (w : World) (seen : gset string) (mapping_name : string) : World :=
  if writable w
  then {| files := <[_get_seen_file_path mapping_name := Stored (capped (set_list seen))]>
                     (files w);
          writable := writable w |}
  else w.

Definition _process_items (w : World) (items : list Element)
    (categories : gset string) (mapping_name : string)
    : result (World * list Element) :=
  let* seen := _load_seen w mapping_name in
  let '(seen, matching_items) := fold_left (process_item categories) items (seen, []) in
  let* w := _save_seen w seen mapping_name in
  Ok (w, matching_items).

Definition _send_notification (self : t) (item : Element) (endpoint : TorznabEndpoint.t)
    : event :=
  let mapping_name := TorznabEndpoint.name endpoint +:+ "-notifiarr" in
  match NotificationConfig.get_notification_data
          (notification_config self) item mapping_name with
  | Ok notification_data => Sent item notification_data
  | Raise e => Dropped item e
  end.

(** [poll_torznab], given what [_fetch_torznab_feed] returned (its list
    of items) or raised. *)
Definition poll_torznab (self : t) (w : World) (fetched : result (list Element))
    (endpoint : TorznabEndpoint.t) : World * list event :=
  let mapping_name := TorznabEndpoint.name endpoint +:+ "-notifiarr" in
  try_except
    (let* items := fetched in
     let* processed :=
       _process_items w (reverse items) (TorznabEndpoint.categories endpoint)
                      mapping_name in
     let '(w, matching_items) := processed in
     Ok (w, (λ item, _send_notification self item endpoint) <$> matching_items))
    (λ _, (w, [])).

(** [_initialize_seen_items], given what [_fetch_torznab_feed] returned or
    raised. A failure after [_clear_seen] leaves the file removed. *)
Definition _initialize_seen_items (w : World) (fetched : result (list Element))
    (endpoint : TorznabEndpoint.t) : World * list event :=
  let mapping_name := TorznabEndpoint.name endpoint +:+ "-notifiarr" in
  match _clear_seen w mapping_name with
  | Raise _ => (w, [])
  | Ok w =>
      try_except
        (let* items := fetched in
         let* processed :=
           _process_items w items (TorznabEndpoint.categories endpoint)
                          mapping_name in
         let '(w, matching_items) := processed in
         Ok (w, []))
        (λ _, (w, []))
  end.

End monitor.

End TorznabMonitor.

(** ** Loading the configuration and the feed *)

(** [d[k] = v] on a dict kept as the list of its items, in the order of
    insertion: a key that is present keeps its place. *)
Fixpoint dict_set {V : Type} (k : string) (v : V) (d : list (string * V))
    : list (string * V) :=
  match d with
  | [] => [(k, v)]
  | (k', v') :: d' =>
      if String.eqb k' k then (k, v) :: d' else (k', v') :: dict_set k v d'
  end.

(** The methods of [TorznabEndpoint] and the class [TorznabConfiguration]
    of [configurations/torznab_config.py]. The dicts read from the
    configuration file are taken with values of the types the file format
    gives them; a key may be missing. *)
Module TorznabConfiguration.

(** The JSON object of one endpoint. *)
Record endpoint_dict : Type := mk_endpoint_dict {
  url : option string;
  categories : option (list string);
  poll_interval : option Z
}.

(** The JSON object under the key [torznab]. *)
Record torznab_dict : Type := mk_torznab_dict {
  endpoints_items : option (list (string * endpoint_dict))
}.

(** The configuration file as a dict. *)
Record config_dict : Type := mk_config_dict {
  torznab : option torznab_dict
}.

(** [TorznabEndpoint.from_dict] *)
Definition endpoint_from_dict (d : endpoint_dict) (endpoint_name : string)
    : TorznabEndpoint.t :=
  {| TorznabEndpoint.name := endpoint_name;
     TorznabEndpoint.url := default "" (url d);
     TorznabEndpoint.categories := list_to_set (default [] (categories d));
     TorznabEndpoint.poll_interval := default 1800%Z (poll_interval d) |}.

(** [TorznabEndpoint.validate]; a poll interval below 60 is logged and
    accepted. *)
Definition endpoint_validate (self : TorznabEndpoint.t) : bool :=
  if String.eqb (TorznabEndpoint.name self) "" then false
  else if String.eqb (TorznabEndpoint.url self) "" then false
  else if bool_decide (TorznabEndpoint.categories self = ∅) then false
  else if Z.ltb (TorznabEndpoint.poll_interval self) 60 then true
  else true.

(** The dataclass [TorznabConfiguration]: the endpoints by name, in the
    order of the file. *)
Record t : Type := mk {
  endpoints : list (string * TorznabEndpoint.t)
}.

Definition from_dict (config : config_dict) : t :=
  let torznab_config := default (mk_torznab_dict None) (torznab config) in
  mk (fold_left
        (λ endpoints '(endpoint_name, endpoint_config),
           dict_set endpoint_name
                    (endpoint_from_dict endpoint_config endpoint_name) endpoints)
        (default [] (endpoints_items torznab_config)) []).

(** [from_file], given what [json.load] returned or what opening and
    decoding the file raised (logged and raised again). *)
Definition from_file (loaded : result config_dict) : result t :=
  let* config := loaded in Ok (from_dict config).

Definition validate (self : t) : bool :=
  match endpoints self with
  | [] => false
  | _ => forallb (λ '(endpoint_name, endpoint), endpoint_validate endpoint)
                 (endpoints self)
  end.

Definition get_first_endpoint (self : t) : result TorznabEndpoint.t :=
  match endpoints self with
  | [] => Raise ValueError
  | (_, endpoint) :: _ => Ok endpoint
  end.

End TorznabConfiguration.

(** [NotificationMapping.from_dict] and [NotificationConfig._load_mappings]
    of [configurations/notification_config.py]. A field mapping of the
    file is a dict from keys to strings. *)
Module MappingFile.

(** [NotificationMapping.from_dict]: [mapping_dict['type']] raises
    [KeyError] when the key is missing, the other keys are read with
    [get]. *)
Definition from_dict (mapping_dict : gmap string string)
    : result NotificationMapping.t :=
  match mapping_dict !! "type" with
  | None => Raise KeyError
  | Some type =>
      Ok {| NotificationMapping.type := type;
            NotificationMapping.path := mapping_dict !! "path";
            NotificationMapping.name := mapping_dict !! "name";
            NotificationMapping.value := mapping_dict !! "value";
            NotificationMapping.select := mapping_dict !! "select" |}
  end.

(** The inner comprehension
    [{field: from_dict(field_mapping) for field, field_mapping in ...}].
    The items are those of a dict: their keys are distinct. *)
Fixpoint load_fields (mapping_config : list (string * gmap string string))
    : result (list (string * NotificationMapping.t)) :=
  match mapping_config with
  | [] => Ok []
  | (field, field_mapping) :: rest =>
      let* m := from_dict field_mapping in
      let* ms := load_fields rest in
      Ok ((field, m) :: ms)
  end.

(** Every field mapping of a mapping has the key [type] (used in
    statements only). *)
Definition typed_fields (fields : list (string * gmap string string)) : Prop :=
  Forall (λ field, is_Some (field.2 !! "type")) fields.

(** The file as a dict: the items under the key [mappings], when the key
    is there. *)
Record mapping_file : Type := mk_mapping_file {
  mappings_items : option (list (string * list (string * gmap string string)))
}.

(** The outer comprehension, one mapping after the other. *)
Definition load_mapping
    (acc : result (gmap string (list (string * NotificationMapping.t))))
    (entry : string * list (string * gmap string string))
    : result (gmap string (list (string * NotificationMapping.t))) :=
  let* mappings := acc in
  let* fields := load_fields entry.2 in
  Ok (<[entry.1 := fields]> mappings).

(** [_load_mappings], given what [json.load] returned or what opening and
    decoding the file raised (logged and raised again). *)
Definition _load_mappings (loaded : result mapping_file)
    : result (gmap string (list (string * NotificationMapping.t))) :=
  let* config_dict := loaded in
  fold_left load_mapping (default [] (mappings_items config_dict)) (Ok ∅).

(** [NotificationConfig.__init__] *)
Definition init (loaded : result mapping_file) : result NotificationConfig.t :=
  let* mappings := _load_mappings loaded in
  Ok (NotificationConfig.mk mappings).

End MappingFile.

(** [TorznabMonitor._fetch_torznab_feed], given the document the
    response parsed to, or what the request or the parser raised:
    [root.findall('.//item')] is every descendant of the root with the
    tag [item], in document order. *)
Definition _fetch_torznab_feed (response : result Element)
    : result (Element * list Element) :=
  let* root := response in
  let items := List.filter (λ d, String.eqb (tag d) "item") (descendants root) in
  Ok (root, items).

(** ** Concrete parameters and data for the examples *)

(** Iteration in the order of stdpp's [elements]. *)
Definition elements_order : SetOrder :=
  {| set_list := elements;
     set_list_perm := λ s, Permutation_refl (elements s) |}.

(** [<torznab:attr name="category" value=c/>] *)
Definition category_attr (c : string) : Element :=
  mkElement "{http://torznab.com/schemas/2015/feed}attr"
            [("name", "category"); ("value", c)] None [].

(** [<item><title>..</title><guid>..</guid><attr .. /></item>] *)
Definition feed_item (title guid category : string) : Element :=
  mkElement "item" []
    None
    [ mkElement "title" [] (Some title) [];
      mkElement "guid" [] (Some guid) [];
      category_attr category ].

Definition item_A : Element := feed_item "A" "http://t/details?id=1&key=k" "2000".
Definition item_B : Element := feed_item "B" "http://t/details?id=2&key=k" "5000".
Definition item_C : Element := feed_item "C" "http://t/details?id=3&key=k" "5040".

Definition tv_endpoint : TorznabEndpoint.t :=
  {| TorznabEndpoint.name := "tv";
     TorznabEndpoint.url := "http://t/api";
     TorznabEndpoint.categories := {[ "5000"; "5040" ]};
     TorznabEndpoint.poll_interval := 1800 |}.

Definition title_mapping : NotificationMapping.t :=
  {| NotificationMapping.type := "xml_tag";
     NotificationMapping.path := Some "title";
     NotificationMapping.name := None;
     NotificationMapping.value := None;
     NotificationMapping.select := None |}.

(** An [xml_tag] field whose path is absolute: [find] raises on it. *)
Definition broken_mapping : NotificationMapping.t :=
  {| NotificationMapping.type := "xml_tag";
     NotificationMapping.path := Some "/title";
     NotificationMapping.name := None;
     NotificationMapping.value := None;
     NotificationMapping.select := None |}.

Definition event_mapping : NotificationMapping.t :=
  {| NotificationMapping.type := "static";
     NotificationMapping.path := None;
     NotificationMapping.name := None;
     NotificationMapping.value := Some "grab";
     NotificationMapping.select := None |}.

Definition categories_mapping (select : string) : NotificationMapping.t :=
  {| NotificationMapping.type := "torznab_attr";
     NotificationMapping.path := None;
     NotificationMapping.name := Some "category";
     NotificationMapping.value := None;
     NotificationMapping.select := Some select |}.

(** A field of a type the engine does not know. *)
Definition regex_mapping : NotificationMapping.t :=
  {| NotificationMapping.type := "regex";
     NotificationMapping.path := Some "title";
     NotificationMapping.name := None;
     NotificationMapping.value := None;
     NotificationMapping.select := None |}.

Definition tv_mapping : list (string * NotificationMapping.t) :=
  [ ("title", title_mapping);
    ("broken", broken_mapping);
    ("event", event_mapping);
    ("categories", categories_mapping "all");
    ("extra", regex_mapping) ].

Definition tv_config : NotificationConfig.t :=
  {| NotificationConfig.mappings := {[ "tv-notifiarr" := tv_mapping ]} |}.

Definition tv_monitor : TorznabMonitor.t :=
  {| TorznabMonitor.notification_config := tv_config |}.

(** An entry in two categories, one attribute without namespace. *)
Definition item_D : Element :=
  mkElement "item" []
    None
    [ mkElement "title" [] (Some "D") [];
      mkElement "guid" [] (Some "http://t/details?id=4") [];
      category_attr "5000";
      mkElement "attr" [("name", "seeders"); ("value", "12")] None [];
      mkElement "attr" [("name", "category"); ("value", "5040")] None [] ].

(** Identities [0] to [200], in the order in which they are added. *)
Definition many_guids : list string :=
  (λ n : nat, "http://t/details?id=" +:+ pretty n) <$> seq 0 201.

(** A feed of 201 entries of category [5000], with these identities. *)
Definition big_feed : list Element :=
  (λ n : nat, feed_item (pretty n) ("http://t/details?id=" +:+ pretty n +:+ "&key=k") "5000")
    <$> seq 0 201.

Definition empty_world : World := {| files := ∅; writable := true |}.


Definition stored_world : World :=
  {| files := {[ "/data/seen_tv-notifiarr.json" :=
                   Stored ["http://t/details?id=2"; "http://t/details?id=9"] ]};
     writable := true |}.

Definition read_only_world : World :=
  {| files := {[ "/data/seen_tv-notifiarr.json" := Stored ["http://t/details?id=9"] ]};
     writable := false |}.

Definition scalar_world : World :=
  {| files := {[ "/data/seen_tv-notifiarr.json" := Scalar ]}; writable := true |}.

(** The endpoints of a configuration file: [tv], then [movies] without
    categories. *)
Definition tv_endpoint_dict : TorznabConfiguration.endpoint_dict :=
  {| TorznabConfiguration.url := Some "http://t/api";
     TorznabConfiguration.categories := Some ["5000"; "5040"];
     TorznabConfiguration.poll_interval := Some 30%Z |}.

Definition movies_endpoint_dict : TorznabConfiguration.endpoint_dict :=
  {| TorznabConfiguration.url := Some "http://m/api";
     TorznabConfiguration.categories := None;
     TorznabConfiguration.poll_interval := None |}.

Definition tv_config_dict : TorznabConfiguration.config_dict :=
  {| TorznabConfiguration.torznab :=
       Some {| TorznabConfiguration.endpoints_items :=
                 Some [("tv", tv_endpoint_dict); ("movies", movies_endpoint_dict)] |} |}.

(** A mapping file with one mapping of four fields. *)
Definition tv_file_fields : list (string * gmap string string) :=
  [ ("title", {[ "type" := "xml_tag"; "path" := "title" ]});
    ("event", {[ "type" := "static"; "value" := "grab" ]});
    ("categories", {[ "type" := "torznab_attr"; "name" := "category" ]});
    ("link", {[ "type" := "xml_tag" ]}) ].

Definition tv_mapping_file : MappingFile.mapping_file :=
  {| MappingFile.mappings_items := Some [("tv-notifiarr", tv_file_fields)] |}.

(** [<rss><channel><title/> item_B item_A</channel></rss>] *)
Definition rss_document : Element :=
  mkElement "rss" [("version", "2.0")] None
    [ mkElement "channel" [] None
        [ mkElement "title" [] (Some "feed") []; item_B; item_A ] ].

(** * Properties *)

(** ** Strings *)

Section str_lemmas.
Variable sep : ascii.

Lemma partition_None (s : string) :
  contains sep s = false → partition sep s = None.
Proof.
  induction s as [|a s IH]; simpl; [done|].
  destruct (Ascii.eqb a sep); [done|].
  intros Hs. by rewrite IH.
Qed.

Lemma partition_app (a b : string) :
  contains sep a = false → partition sep (a +:+ String sep b) = Some (a, b).
Proof.
  induction a as [|c a IH]; simpl.
  - intros _. by rewrite Ascii.eqb_refl.
  - destruct (Ascii.eqb c sep); [done|].
    intros Ha. by rewrite IH.
Qed.

Lemma partition_Some (s a b : string) :
  partition sep s = Some (a, b) →
  s = a +:+ String sep b ∧ contains sep a = false.
Proof.
  revert a. induction s as [|c s IH]; simpl; [done|].
  intros a. destruct (Ascii.eqb c sep) eqn:Hc.
  - apply Ascii.eqb_eq in Hc as ->. by intros [= <- <-].
  - destruct (partition sep s) as [[a' b']|]; [|done].
    intros [= <- <-]. destruct (IH a' eq_refl) as [-> Ha'].
    simpl. by rewrite Hc.
Qed.

Lemma split_plain (s : string) :
  contains sep s = false → split sep s = [s].
Proof.
  induction s as [|a s IH]; simpl; [done|].
  destruct (Ascii.eqb a sep); [done|].
  intros Hs. by rewrite IH.
Qed.

Lemma split_app (a b : string) :
  contains sep a = false →
  split sep (a +:+ String sep b) = a :: split sep b.
Proof.
  induction a as [|c a IH]; simpl.
  - intros _. by rewrite Ascii.eqb_refl.
  - destruct (Ascii.eqb c sep); [done|].
    intros Ha. by rewrite IH.
Qed.

Lemma split_join (ps : list string) :
  ps ≠ [] → Forall (λ p, contains sep p = false) ps →
  split sep (join sep ps) = ps.
Proof.
  induction ps as [|p ps IH]; [done|].
  intros _ Hps. apply Forall_cons in Hps as [Hp Hps].
  destruct ps as [|q ps].
  - simpl. by apply split_plain.
  - change (join sep (p :: q :: ps)) with (p +:+ String sep (join sep (q :: ps))).
    rewrite split_app by done. by rewrite IH.
Qed.

Lemma split_pieces (s : string) :
  Forall (λ p, contains sep p = false) (split sep s).
Proof.
  induction s as [|a s IH]; simpl.
  - by repeat constructor.
  - destruct (Ascii.eqb a sep) eqn:Ha.
    + by constructor.
    + destruct (split sep s) as [|piece rest].
      * repeat constructor. simpl. by rewrite Ha.
      * apply Forall_cons in IH as [Hp Hr].
        constructor; [|done]. simpl. by rewrite Ha.
Qed.

End str_lemmas.

Lemma find_startswith_skip (before : list string) (rest : list string) :
  Forall (λ p, startswith "id=" p = false) before →
  List.find (startswith "id=") (before ++ rest)%list = List.find (startswith "id=") rest.
Proof.
  induction 1 as [|p before Hp _ IH]; simpl; [done|].
  by rewrite Hp.
Qed.

Lemma clean_guid_no_query (guid : string) :
  contains "?"%char guid = false → _clean_guid guid = guid.
Proof.
  intros Hq. unfold _clean_guid, clean_guid_body, split1.
  by rewrite partition_None.
Qed.

Lemma clean_guid_query (base params : string) :
  contains "?"%char base = false →
  _clean_guid (base +:+ "?" +:+ params) =
    match List.find (startswith "id=") (split "&"%char params) with
    | Some param => base +:+ "?" +:+ param
    | None => base
    end.
Proof.
  intros Hb. unfold _clean_guid, clean_guid_body, split1.
  change ("?" +:+ params) with (String "?"%char params).
  rewrite partition_app by done. simpl.
  by destruct (List.find _ _).
Qed.

Lemma clean_guid_idemp (guid : string) :
  _clean_guid (_clean_guid guid) = _clean_guid guid.
Proof.
  destruct (partition "?"%char guid) as [[base params]|] eqn:Hp.
  - apply partition_Some in Hp as [-> Hb].
    change (String "?"%char params) with ("?" +:+ params).
    rewrite clean_guid_query by done.
    destruct (List.find _ _) as [param|] eqn:Hf.
    + apply find_some in Hf as [Hin Hid].
      pose proof (split_pieces "&"%char params) as Hall.
      rewrite List.Forall_forall in Hall. specialize (Hall _ Hin).
      rewrite clean_guid_query by done.
      rewrite split_plain by done.
      cbn [List.find]. by rewrite Hid.
    + by apply clean_guid_no_query.
  - unfold _clean_guid at 2. unfold clean_guid_body, split1. rewrite Hp. simpl.
    unfold _clean_guid, clean_guid_body, split1. by rewrite Hp.
Qed.

(** C2. [_clean_guid] on a GUID [base?p1&..&pn] whose first parameter
    starting with [id=] is [p] returns [base?p]; with no such parameter it
    returns [base]; a GUID without [?] is returned unchanged. The function
    is total, and when the body of its [try] raises, the result is the
    GUID itself. *)
Theorem clean_guid_spec :
  (∀ guid, contains "?"%char guid = false → _clean_guid guid = guid) ∧
  (∀ base before param after,
     contains "?"%char base = false →
     Forall (λ p, contains "&"%char p = false ∧ startswith "id=" p = false) before →
     contains "&"%char param = false →
     startswith "id=" param = true →
     Forall (λ p, contains "&"%char p = false) after →
     _clean_guid (base +:+ "?" +:+ join "&"%char (before ++ param :: after)%list)
       = base +:+ "?" +:+ param) ∧
  (∀ base params,
     contains "?"%char base = false →
     Forall (λ p, contains "&"%char p = false ∧ startswith "id=" p = false) params →
     _clean_guid (base +:+ "?" +:+ join "&"%char params) = base) ∧
  (∀ guid e, clean_guid_body guid = Raise e → _clean_guid guid = guid).
Proof.
  repeat split.
  - apply clean_guid_no_query.
  - intros base before param after Hb Hbefore Hp Hid Hafter.
    rewrite clean_guid_query by done.
    rewrite split_join.
    + rewrite find_startswith_skip by (eapply Forall_impl; [done|]; by intros ? [_ ?]).
      simpl. by rewrite Hid.
    + by destruct before.
    + apply Forall_app. split.
      * eapply Forall_impl; [done|]. by intros ? [? _].
      * by constructor.
  - intros base params Hb Hparams.
    rewrite clean_guid_query by done.
    destruct params as [|p ps].
    + done.
    + rewrite split_join; [|done|].
      * rewrite <- (app_nil_r (p :: ps)).
        rewrite find_startswith_skip; [done|].
        eapply Forall_impl; [done|]. by intros ? [_ ?].
      * eapply Forall_impl; [done|]. by intros ? [? _].
  - intros guid e He. unfold _clean_guid. by rewrite He.
Qed.

Lemma clean_guid_spec_witness :
  _clean_guid "http://t/details" = "http://t/details" ∧
  _clean_guid ("http://t/details" +:+ "?" +:+
               join "&"%char (["cat=5000"] ++ "id=42" :: ["passkey=abc"; "id=7"])%list)
    = "http://t/details" +:+ "?" +:+ "id=42" ∧
  _clean_guid ("http://t/details" +:+ "?" +:+ join "&"%char ["cat=5000"; "uid=3"])
    = "http://t/details" ∧
  _clean_guid "urn:no-query" = "urn:no-query".
Proof.
  destruct clean_guid_spec as (Hplain & Hid & Hbase & Hfault).
  split; [|split; [|split]].
  - apply Hplain. reflexivity.
  - apply Hid; repeat constructor.
  - apply Hbase; repeat constructor.
  - apply (Hfault "urn:no-query" ValueError). reflexivity.
Defined.

(** ** Field mapping ([NotificationConfig]) *)

Section field_mapping.
Context {xpath : XPath}.

Import NotificationConfig.

Lemma extract_field_same (item : Element) (data : gmap string value)
    (field : string) (fm : NotificationMapping.t) :
  extract_field item data (field, fm) !! field
    = field_outcome item fm (data !! field).
Proof.
  unfold extract_field, field_outcome.
  destruct (field_value item fm) as [[v|]|e]; by simplify_map_eq.
Qed.

Lemma extract_field_other (item : Element) (data : gmap string value)
    (field other : string) (fm : NotificationMapping.t) :
  other ≠ field →
  extract_field item data (field, fm) !! other = data !! other.
Proof.
  intros Hne. unfold extract_field.
  destruct (field_value item fm) as [[v|]|e]; by simplify_map_eq.
Qed.

Lemma fold_extract_absent (item : Element)
    (mapping : list (string * NotificationMapping.t))
    (data : gmap string value) (field : string) :
  field ∉ mapping.*1 →
  fold_left (extract_field item) mapping data !! field = data !! field.
Proof.
  revert data. induction mapping as [|[f0 m0] mapping IH]; intros data Hnot; [done|].
  rewrite fmap_cons in Hnot. cbn [fold_left fst] in *.
  apply not_elem_of_cons in Hnot as [Hne Hnot].
  rewrite IH by done. by apply extract_field_other.
Qed.

Lemma fold_extract_lookup (item : Element)
    (mapping : list (string * NotificationMapping.t))
    (data : gmap string value) (field : string) (fm : NotificationMapping.t) :
  NoDup (mapping.*1) → (field, fm) ∈ mapping →
  fold_left (extract_field item) mapping data !! field
    = field_outcome item fm (data !! field).
Proof.
  revert data. induction mapping as [|[f0 m0] mapping IH]; intros data Hnd Hin.
  - by apply elem_of_nil in Hin.
  - rewrite fmap_cons in Hnd. cbn [fold_left fst] in *.
    apply NoDup_cons in Hnd as [Hf0 Hnd].
    apply elem_of_cons in Hin as [[= <- <-]|Hin].
    + rewrite fold_extract_absent by done. apply extract_field_same.
    + assert (field ≠ f0) as Hne.
      { intros ->. apply Hf0. apply list_elem_of_fmap. by exists (f0, fm). }
      rewrite IH by done. unfold field_outcome.
      by rewrite extract_field_other.
Qed.

Lemma field_value_no_raise (item : Element) (fm : NotificationMapping.t) :
  ∃ o, field_value item fm = Ok o.
Proof.
  unfold field_value. repeat case_match; eauto.
Qed.

(** C8. [get_notification_data] returns (does not raise) whenever the
    mapping is configured, and every field is extracted on its own: an
    [xml_tag] field whose path makes [find] raise, or finds nothing, is
    [None] in the payload, and every other field of the mapping has the
    value its own extraction yields. *)
Theorem get_notification_data_isolated (self : NotificationConfig.t)
    (item : Element) (mapping_name : string)
    (mapping : list (string * NotificationMapping.t)) :
  mappings self !! mapping_name = Some mapping →
  ∃ data,
    get_notification_data self item mapping_name = Ok data ∧
    (NoDup (mapping.*1) →
     ∀ field fm, (field, fm) ∈ mapping →
       (NotificationMapping.type fm = "static" →
          data !! field = Some (of_option (NotificationMapping.value fm))) ∧
       (NotificationMapping.type fm = "xml_tag" →
          data !! field =
            Some (match find item (NotificationMapping.path fm) with
                  | Ok (Some el) => of_option (text el)
                  | Ok None => VNone
                  | Raise _ => VNone
                  end)) ∧
       (NotificationMapping.type fm = "torznab_attr" →
          data !! field =
            Some (_extract_torznab_attr item (NotificationMapping.name fm)
                                        (NotificationMapping.select fm)))).
Proof.
  intros Hm. unfold get_notification_data. rewrite Hm.
  eexists. split; [done|].
  intros Hnd field fm Hin.
  rewrite (fold_extract_lookup _ _ _ _ _ Hnd Hin).
  unfold field_outcome, field_value.
  repeat split; intros ->; simpl; [done| |done].
  unfold _extract_xml_tag. by destruct (find _ _) as [[el|]|e].
Qed.

(** C10. A field whose type is none of [static], [xml_tag] and
    [torznab_attr] gets no key in the payload, and the call still
    returns; a field of type [xml_tag] whose extraction faults is in the
    payload, with value [None]. *)
Theorem unknown_type_omitted (self : NotificationConfig.t)
    (item : Element) (mapping_name : string)
    (mapping : list (string * NotificationMapping.t)) :
  mappings self !! mapping_name = Some mapping →
  NoDup (mapping.*1) →
  ∃ data,
    get_notification_data self item mapping_name = Ok data ∧
    (∀ field fm, (field, fm) ∈ mapping →
       NotificationMapping.type fm ≠ "static" →
       NotificationMapping.type fm ≠ "xml_tag" →
       NotificationMapping.type fm ≠ "torznab_attr" →
       data !! field = None) ∧
    (∀ field fm e, (field, fm) ∈ mapping →
       NotificationMapping.type fm = "xml_tag" →
       find item (NotificationMapping.path fm) = Raise e →
       data !! field = Some VNone).
Proof.
  intros Hm Hnd. unfold get_notification_data. rewrite Hm.
  eexists. split; [done|]. split.
  - intros field fm Hin Hs Hx Ht.
    rewrite (fold_extract_lookup _ _ _ _ _ Hnd Hin).
    unfold field_outcome, field_value.
    apply String.eqb_neq in Hs, Hx, Ht. by rewrite Hs, Hx, Ht.
  - intros field fm e Hin Hx He.
    rewrite (fold_extract_lookup _ _ _ _ _ Hnd Hin).
    unfold field_outcome, field_value, _extract_xml_tag.
    by rewrite Hx, He.
Qed.


End field_mapping.

(** ** The seen-set store and the processor ([TorznabMonitor]) *)

Section processor.
Context {xpath : XPath} {order : SetOrder}.

Import TorznabMonitor.

Implicit Types (seen : gset string) (item : Element) (items : list Element).

(** *** The store *)

Lemma set_list_elem_of seen (g : string) : g ∈ set_list seen ↔ g ∈ seen.
Proof. rewrite (set_list_perm seen). apply elem_of_elements. Qed.

Lemma set_list_length seen : length (set_list seen) = size seen.
Proof. by rewrite (set_list_perm seen). Qed.

Lemma set_list_to_set seen : list_to_set (set_list seen) = seen.
Proof.
  apply set_eq. intros g. rewrite elem_of_list_to_set. apply set_list_elem_of.
Qed.

Lemma capped_length (l : list string) : (length (capped l) ≤ 200)%nat.
Proof.
  unfold capped, last_n. destruct (Nat.ltb_spec 200 (length l)).
  - rewrite length_drop. lia.
  - lia.
Qed.

Lemma capped_small (l : list string) : (length l ≤ 200)%nat → capped l = l.
Proof.
  unfold capped. intros Hl. destruct (Nat.ltb_spec 200 (length l)); [lia|done].
Qed.

Lemma capped_elem_of (l : list string) (g : string) : g ∈ capped l → g ∈ l.
Proof.
  unfold capped, last_n. destruct (Nat.ltb 200 (length l)); [|done].
  apply subseteq_drop.
Qed.

Lemma save_seen_returns (w : World) seen (mapping_name : string) :
  _save_seen w seen mapping_name = Ok (saved w seen mapping_name).
Proof.
  unfold _save_seen, saved, write_json, capped. by destruct (writable w).
Qed.

Lemma save_seen_writable (w : World) seen (mapping_name : string) :
  writable w = true →
  saved w seen mapping_name =
    {| files := <[_get_seen_file_path mapping_name := Stored (capped (set_list seen))]>
                  (files w);
       writable := true |}.
Proof.
  intros Hw. unfold saved. by rewrite Hw.
Qed.

Lemma save_seen_read_only (w : World) seen (mapping_name : string) :
  writable w = false → saved w seen mapping_name = w.
Proof.
  intros Hw. unfold saved. by rewrite Hw.
Qed.

Lemma load_seen_stored (w : World) (mapping_name : string) (l : list string) :
  files w !! _get_seen_file_path mapping_name = Some (Stored l) →
  _load_seen w mapping_name = Ok (list_to_set (_clean_guid <$> l)).
Proof.
  intros Hf. unfold _load_seen, read_json. by rewrite Hf.
Qed.

Lemma load_seen_clean (w : World) (mapping_name : string) seen (g : string) :
  _load_seen w mapping_name = Ok seen → g ∈ seen → _clean_guid g = g.
Proof.
  unfold _load_seen, read_json.
  destruct (files w !! _) as [[| |l]|]; simpl; intros [= <-]; try set_solver.
  rewrite elem_of_list_to_set, list_elem_of_fmap.
  intros (g' & -> & _). apply clean_guid_idemp.
Qed.

Lemma fmap_clean_fixed (l : list string) :
  Forall (λ g, _clean_guid g = g) l → _clean_guid <$> l = l.
Proof.
  induction 1 as [|g l Hg _ IH]; [done|].
  rewrite fmap_cons. by rewrite Hg, IH.
Qed.

(** *** One entry *)

Lemma identity_clean item (g : string) : identity item = Some g → _clean_guid g = g.
Proof.
  unfold identity. destruct (guid_of item) as [guid|]; [|done].
  destruct (String.eqb guid ""); [done|].
  intros [= <-]. apply clean_guid_idemp.
Qed.

Lemma process_item_eq (categories : gset string) seen (matching : list Element) item :
  process_item categories (seen, matching) item =
    match identity item with
    | Some g =>
        if bool_decide (g ∈ seen) then (seen, matching)
        else if category_match categories item
             then (seen ∪ {[g]}, (matching ++ [item])%list)
             else (seen, matching)
    | None => (seen, matching)
    end.
Proof.
  unfold process_item, identity, category_match.
  destruct (guid_of item) as [guid|]; [|done].
  by destruct (String.eqb guid "").
Qed.

(** *** The loop *)

Lemma process_loop_inv (categories : gset string) items :
  ∀ seen (matching : list Element) seen' matching',
    fold_left (process_item categories) items (seen, matching) = (seen', matching') →
    ∃ new,
      matching' = (matching ++ new)%list ∧
      sublist new items ∧
      Forall (λ item, category_match categories item = true) new ∧
      identity <$> new = Some <$> omap identity new ∧
      NoDup (omap identity new) ∧
      (∀ g, g ∈ omap identity new → g ∉ seen) ∧
      seen' = seen ∪ list_to_set (omap identity new).
Proof.
  induction items as [|item items IH]; intros seen matching seen' matching' Hloop.
  - simpl in Hloop. injection Hloop as <- <-. exists [].
    rewrite app_nil_r. repeat split; try done; try constructor; set_solver.
  - cbn [fold_left] in Hloop. rewrite process_item_eq in Hloop.
    assert (∀ new, sublist new items → sublist new (item :: items)) as Hskip
      by (intros; by apply sublist_cons).
    destruct (identity item) as [g|] eqn:Hid;
      [destruct (bool_decide (g ∈ seen)) eqn:Hseen;
        [|destruct (category_match categories item) eqn:Hcat]|].
    1,3,4: destruct (IH _ _ _ _ Hloop) as (new & ? & ? & ? & ? & ? & ? & ?);
           exists new; repeat split; auto.
    apply bool_decide_eq_false in Hseen.
    destruct (IH _ _ _ _ Hloop) as (new & -> & Hsub & Hcats & Hids & Hnd & Hfresh & ->).
    exists (item :: new).
    rewrite <- app_assoc. cbn [omap list_omap]. rewrite Hid.
    repeat split.
    + by apply sublist_skip.
    + by constructor.
    + rewrite !fmap_cons. by rewrite Hid, Hids.
    + apply NoDup_cons. split; [|done].
      intros Hg. apply (Hfresh g Hg). set_solver.
    + intros g' [->|Hg']%elem_of_cons; [done|].
      specialize (Hfresh g' Hg'). set_solver.
    + rewrite list_to_set_cons. set_solver.
Qed.

Lemma process_loop_seen (categories : gset string) items :
  ∀ seen (matching : list Element),
    (fold_left (process_item categories) items (seen, matching)).1
      = seen ∪ list_to_set (omap (seed categories) items).
Proof.
  induction items as [|item items IH]; intros seen matching.
  - simpl. set_solver.
  - cbn [fold_left omap list_omap]. rewrite process_item_eq. unfold seed at 1.
    destruct (identity item) as [g|] eqn:Hid;
      [destruct (bool_decide (g ∈ seen)) eqn:Hseen;
        [apply bool_decide_eq_true in Hseen|apply bool_decide_eq_false in Hseen];
        destruct (category_match categories item) eqn:Hcat|
       destruct (category_match categories item)];
      rewrite IH; try rewrite list_to_set_cons; set_solver.
Qed.


(** *** The claims about the store *)


(** A seen file that holds a JSON document that cannot be iterated makes
    [_load_seen] raise: only the two exceptions of its [except] clause
    are turned into the empty set. *)
Lemma load_seen_scalar (w : World) (mapping_name : string) :
  files w !! _get_seen_file_path mapping_name = Some Scalar →
  _load_seen w mapping_name = Raise TypeError.
Proof.
  intros Hf. unfold _load_seen, read_json. by rewrite Hf.
Qed.

(** *** The claims about the processor *)

Lemma process_items_inv (w : World) items (categories : gset string)
    (mapping_name : string) (w' : World) (matching : list Element) :
  _process_items w items categories mapping_name = Ok (w', matching) →
  ∃ seen0 seen',
    _load_seen w mapping_name = Ok seen0 ∧
    fold_left (process_item categories) items (seen0, []) = (seen', matching) ∧
    w' = saved w seen' mapping_name.
Proof.
  unfold _process_items. destruct (_load_seen w mapping_name) as [seen0|e]; [|done].
  simpl. destruct (fold_left _ _ _) as [seen' matching'] eqn:Hloop.
  rewrite save_seen_returns. simpl.
  intros [= <- <-]. by exists seen0, seen'.
Qed.

Lemma process_items_run (w : World) items (categories : gset string)
    (mapping_name : string) seen0 :
  _load_seen w mapping_name = Ok seen0 →
  _process_items w items categories mapping_name =
    let st := fold_left (process_item categories) items (seen0, []) in
    Ok (saved w st.1 mapping_name, st.2).
Proof.
  intros Hload. unfold _process_items. rewrite Hload. simpl.
  destruct (fold_left _ _ _). by rewrite save_seen_returns.
Qed.

(** C5. An entry whose categories do not intersect the configured ones
    leaves the seen set and the match list as they are; hence every entry
    of the match list intersects them, and every identity in the seen set
    at the end of the loop was loaded or is the identity of an entry of
    the feed whose categories intersect. *)
Theorem category_filter (categories : gset string) :
  (∀ st item,
     intersection categories (_extract_categories item) = ∅ →
     process_item categories st item = st) ∧
  (∀ w items mapping_name w' matching,
     _process_items w items categories mapping_name = Ok (w', matching) →
     ∀ item, item ∈ matching →
       intersection categories (_extract_categories item) ≠ ∅) ∧
  (∀ items seen0 seen' matching,
     fold_left (process_item categories) items (seen0, []) = (seen', matching) →
     ∀ g, g ∈ seen' →
       g ∈ seen0 ∨
       ∃ item, item ∈ items ∧ identity item = Some g ∧
               intersection categories (_extract_categories item) ≠ ∅).
Proof.
  split; [|split].
  - intros [seen matching] item Hcat. rewrite process_item_eq.
    unfold category_match. rewrite bool_decide_eq_false_2 by (by intros ?).
    by repeat case_match.
  - intros w items mapping_name w' matching Hrun item Hin.
    apply process_items_inv in Hrun as (seen0 & seen' & _ & Hloop & _).
    apply process_loop_inv in Hloop as (new & -> & _ & Hcats & _).
    rewrite Forall_forall in Hcats. specialize (Hcats item Hin).
    by apply bool_decide_eq_true in Hcats.
  - intros items seen0 seen' matching Hloop g Hg.
    apply process_loop_inv in Hloop as (new & -> & Hsub & Hcats & _ & _ & _ & ->).
    apply elem_of_union in Hg as [Hg|Hg]; [by left|right].
    apply elem_of_list_to_set, list_elem_of_omap in Hg as (item & Hin & Hid).
    exists item. rewrite Forall_forall in Hcats.
    split; [by eapply elem_of_sublist|]. split; [done|].
    specialize (Hcats item Hin). by apply bool_decide_eq_true in Hcats.
Qed.

Lemma event_item_send (self : TorznabMonitor.t) (endpoint : TorznabEndpoint.t)
    (matching : list Element) :
  event_item <$> ((λ item, _send_notification self item endpoint) <$> matching)
    = matching.
Proof.
  induction matching as [|item matching IH]; [done|].
  rewrite !fmap_cons, IH. unfold _send_notification.
  by destruct (NotificationConfig.get_notification_data _ _ _).
Qed.

Lemma poll_torznab_inv (self : TorznabMonitor.t) (w : World)
    (fetched : result (list Element)) (endpoint : TorznabEndpoint.t)
    (w' : World) (evs : list event) :
  poll_torznab self w fetched endpoint = (w', evs) →
  (w' = w ∧ evs = []) ∨
  ∃ items,
    fetched = Ok items ∧
    _process_items w (reverse items) (TorznabEndpoint.categories endpoint)
      (TorznabEndpoint.name endpoint +:+ "-notifiarr") = Ok (w', event_item <$> evs) ∧
    evs = (λ item, _send_notification self item endpoint) <$> (event_item <$> evs).
Proof.
  unfold poll_torznab. destruct fetched as [items|e]; simpl.
  - destruct (_process_items _ _ _ _) as [[w1 matching]|e] eqn:Hrun; simpl.
    + intros [= <- <-]. right. exists items.
      rewrite event_item_send. by rewrite Hrun.
    + intros [= <- <-]. by left.
  - intros [= <- <-]. by left.
Qed.








End processor.

(** ** The cap of the seen file *)

Section cap.
Context {order : SetOrder}.

Import TorznabMonitor.

(** What [_save_seen] leaves on disk: at most 200 members of the set,
    each once; all of them when the set has at most 200. *)
Lemma save_seen_capped (w : World) (seen : gset string) (mapping_name : string) :
  writable w = true →
  ∃ l,
    _save_seen w seen mapping_name = Ok (saved w seen mapping_name) ∧
    files (saved w seen mapping_name) !! _get_seen_file_path mapping_name
      = Some (Stored l) ∧
    (length l ≤ 200)%nat ∧
    (∀ g, g ∈ l → g ∈ seen) ∧
    ((size seen ≤ 200)%nat → l ≡ₚ elements seen).
Proof.
  intros Hw. exists (capped (set_list seen)).
  split; [apply save_seen_returns|].
  rewrite save_seen_writable by done. simpl.
  split; [apply lookup_insert_eq|]. split; [apply capped_length|]. split.
  - intros g Hg%capped_elem_of. by apply set_list_elem_of.
  - intros Hsize. rewrite capped_small by (by rewrite set_list_length).
    apply set_list_perm.
Qed.

(** Which identity the cap cuts is decided by the order of iteration of
    the set, not by the order of insertion: any 201 identities can be
    inserted in an order such that one of the 200 inserted last is cut. *)
Lemma save_seen_ignores_history (ids : gset string) :
  size ids = 201%nat →
  ∃ history,
    NoDup history ∧ list_to_set history = ids ∧
    ∀ w mapping_name, writable w = true →
      ∃ l g,
        files (saved w ids mapping_name) !! _get_seen_file_path mapping_name
          = Some (Stored l) ∧
        g ∈ last_n 200 history ∧ g ∉ l.
Proof.
  intros Hsize. exists (reverse (set_list ids)).
  assert (NoDup (set_list ids)) as Hnd
    by (rewrite set_list_perm; apply NoDup_elements).
  pose proof (set_list_length ids) as Hlen. rewrite Hsize in Hlen.
  split; [by rewrite reverse_Permutation|]. split.
  { apply set_eq. intros g.
    by rewrite elem_of_list_to_set, elem_of_reverse, set_list_elem_of. }
  intros w mapping_name Hw.
  destruct (set_list ids) as [|x rest] eqn:Hlist; [done|].
  simpl in Hlen. injection Hlen as Hlen.
  exists rest, x. rewrite save_seen_writable, Hlist by done. simpl.
  split; [|split].
  - rewrite lookup_insert_eq. do 2 f_equal.
    unfold capped, last_n. simpl. rewrite Hlen. simpl.
    replace (S (length rest) - 200)%nat with 1%nat by lia. done.
  - unfold last_n. rewrite reverse_cons, length_app, length_reverse, Hlen. simpl.
    rewrite drop_app_le by (rewrite length_reverse; lia).
    apply elem_of_app. right. apply list_elem_of_here.
  - by apply NoDup_cons in Hnd as [? _].
Qed.

End cap.

(** *** What the cap forgets *)

Section forget.
Context {xpath : XPath} {order : SetOrder}.

Import TorznabMonitor.

Lemma seed_identity (categories : gset string) (item : Element) (g : string) :
  seed categories item = Some g → identity item = Some g.
Proof. unfold seed. by destruct (category_match categories item). Qed.

(** A feed with more than 200 distinct matching identities, processed
    twice from an empty seen set with writable files: whatever the order
    of iteration of the set, some identity is matched in both calls. *)
Lemma cap_forgets (w : World) (items : list Element) (categories : gset string)
    (mapping_name : string) :
  writable w = true →
  _load_seen w mapping_name = Ok ∅ →
  (200 < size (list_to_set (omap (seed categories) items) : gset string))%nat →
  ∃ w1 matching1 w2 matching2,
    _process_items w items categories mapping_name = Ok (w1, matching1) ∧
    _process_items w1 items categories mapping_name = Ok (w2, matching2) ∧
    ∃ item1 item2 g,
      item1 ∈ matching1 ∧ item2 ∈ matching2 ∧
      identity item1 = Some g ∧ identity item2 = Some g.
Proof.
  intros Hw Hload Hsize.
  set (seeds := list_to_set (omap (seed categories) items) : gset string) in *.
  assert (∀ g, g ∈ seeds → _clean_guid g = g) as Hclean.
  { intros g (item & _ & Hseed)%elem_of_list_to_set%list_elem_of_omap.
    eapply identity_clean, seed_identity, Hseed. }
  (* the first call *)
  pose proof (process_items_run w items categories mapping_name ∅ Hload) as Hrun1.
  destruct (fold_left (process_item categories) items (∅, []))
    as [seen1 matching1] eqn:Hloop1.
  pose proof (process_loop_seen categories items ∅ []) as Hseen1.
  rewrite Hloop1, union_empty_l_L in Hseen1. simpl in Hseen1, Hrun1. subst seen1.
  apply process_loop_inv in Hloop1
    as (new1 & -> & _ & _ & _ & _ & _ & Hnew1).
  rewrite union_empty_l_L in Hnew1. fold seeds in Hnew1. simpl in Hrun1.
  (* the identity the cap cuts *)
  assert (NoDup (set_list seeds)) as Hnd
    by (rewrite set_list_perm; apply NoDup_elements).
  pose proof (set_list_length seeds) as Hlen.
  destruct (set_list seeds) as [|x rest] eqn:Hlist; [simpl in Hlen; lia|].
  assert (x ∈ seeds) as Hx by (apply set_list_elem_of; rewrite Hlist; left).
  assert (x ∉ capped (x :: rest)) as Hcut.
  { unfold capped, last_n. rewrite Hlen.
    destruct (Nat.ltb_spec 200 (size seeds)) as [_|?]; [|lia].
    replace (size seeds - 200)%nat with (S (size seeds - 201)) by lia. simpl.
    intros Hin%subseteq_drop. by apply NoDup_cons in Hnd as [? _]. }
  (* the second call *)
  set (w1 := saved w seeds mapping_name) in *.
  assert (_load_seen w1 mapping_name = Ok (list_to_set (capped (x :: rest))))
    as Hload2.
  { unfold w1. rewrite save_seen_writable by done.
    erewrite load_seen_stored by (simpl; apply lookup_insert_eq).
    rewrite Hlist. rewrite fmap_clean_fixed; [done|].
    apply Forall_forall. intros g Hg%capped_elem_of.
    apply Hclean, set_list_elem_of. by rewrite Hlist. }
  pose proof (process_items_run w1 items categories mapping_name _ Hload2) as Hrun2.
  destruct (fold_left (process_item categories) items (list_to_set (capped (x :: rest)), []))
    as [seen2 matching2] eqn:Hloop2.
  pose proof (process_loop_seen categories items (list_to_set (capped (x :: rest))) [])
    as Hseen2.
  rewrite Hloop2 in Hseen2. simpl in Hseen2, Hrun2. fold seeds in Hseen2.
  apply process_loop_inv in Hloop2
    as (new2 & -> & _ & _ & _ & _ & _ & Hnew2).
  simpl in Hrun2.
  assert (x ∈ omap identity new2) as Hx2.
  { assert (x ∈ seen2) as Hin by (rewrite Hseen2; by apply elem_of_union_r).
    rewrite Hnew2 in Hin. apply elem_of_union in Hin as [Hin|Hin].
    - by apply elem_of_list_to_set in Hin.
    - by apply elem_of_list_to_set in Hin. }
  assert (x ∈ omap identity new1) as Hx1.
  { rewrite Hnew1 in Hx. by apply elem_of_list_to_set in Hx. }
  apply list_elem_of_omap in Hx1 as (item1 & Hin1 & Hid1).
  apply list_elem_of_omap in Hx2 as (item2 & Hin2 & Hid2).
  exists w1, new1, (saved w1 seen2 mapping_name), new2.
  split; [done|]. split; [done|]. by exists item1, item2, x.
Qed.

End forget.

(** ** The claims at concrete inputs *)

Ltac by_compute := apply (bool_decide_unpack _); vm_compute; exact I.

Lemma get_notification_data_isolated_witness :
  ∃ data,
    NotificationConfig.get_notification_data (xpath := strict_xpath)
      tv_config item_B "tv-notifiarr" = Ok data ∧
    data !! "title" = Some (VStr "B") ∧
    data !! "broken" = Some VNone ∧
    data !! "event" = Some (VStr "grab").
Proof.
  destruct (get_notification_data_isolated (xpath := strict_xpath)
              tv_config item_B "tv-notifiarr" tv_mapping eq_refl)
    as (data & Hdata & Hfields).
  exists data. split; [exact Hdata|].
  assert (NoDup (tv_mapping.*1)) as Hnd by by_compute.
  specialize (Hfields Hnd).
  assert (("title", title_mapping) ∈ tv_mapping) as Htitle by by_compute.
  assert (("broken", broken_mapping) ∈ tv_mapping) as Hbroken by by_compute.
  assert (("event", event_mapping) ∈ tv_mapping) as Hevent by by_compute.
  split; [|split].
  - destruct (Hfields "title" title_mapping Htitle) as (_ & Hx & _).
    exact (Hx eq_refl).
  - destruct (Hfields "broken" broken_mapping Hbroken) as (_ & Hx & _).
    exact (Hx eq_refl).
  - destruct (Hfields "event" event_mapping Hevent) as (Hs & _ & _).
    exact (Hs eq_refl).
Defined.

Lemma unknown_type_omitted_witness :
  ∃ data,
    NotificationConfig.get_notification_data (xpath := strict_xpath)
      tv_config item_B "tv-notifiarr" = Ok data ∧
    data !! "extra" = None ∧
    data !! "broken" = Some VNone.
Proof.
  assert (NoDup (tv_mapping.*1)) as Hnd by by_compute.
  destruct (unknown_type_omitted (xpath := strict_xpath)
              tv_config item_B "tv-notifiarr" tv_mapping eq_refl Hnd)
    as (data & Hdata & Hunknown & Hfault).
  exists data. split; [exact Hdata|].
  assert (("extra", regex_mapping) ∈ tv_mapping) as Hextra by by_compute.
  assert (("broken", broken_mapping) ∈ tv_mapping) as Hbroken by by_compute.
  split.
  - apply (Hunknown "extra" regex_mapping Hextra); by_compute.
  - apply (Hfault "broken" broken_mapping SyntaxError Hbroken); reflexivity.
Defined.



Lemma category_filter_witness :
  let categories := TorznabEndpoint.categories tv_endpoint in
  TorznabMonitor.process_item (xpath := strict_xpath) categories (∅, []) item_A
    = (∅, []) ∧
  TorznabMonitor.intersection categories
    (TorznabMonitor._extract_categories (xpath := strict_xpath) item_B) ≠ ∅ ∧
  ("http://t/details?id=2" ∈ (∅ : gset string) ∨
   ∃ item, item ∈ [item_A; item_B] ∧
     TorznabMonitor.identity item = Some "http://t/details?id=2" ∧
     TorznabMonitor.intersection categories
       (TorznabMonitor._extract_categories (xpath := strict_xpath) item) ≠ ∅).
Proof.
  intros categories.
  destruct (category_filter (xpath := strict_xpath) (order := elements_order)
              categories) as (Hstep & Hmatch & Hseen).
  split; [|split].
  - apply Hstep. by_compute.
  - apply (Hmatch empty_world [item_A; item_B] "tv-notifiarr"
             {| files := {[ "/data/seen_tv-notifiarr.json" :=
                              Stored ["http://t/details?id=2"] ]};
                writable := true |}
             [item_B]).
    + vm_compute. reflexivity.
    + apply list_elem_of_here.
  - apply (Hseen [item_A; item_B] ∅ {[ "http://t/details?id=2" ]} [item_B]).
    + vm_compute. reflexivity.
    + by_compute.
Defined.





(** C4, at an input where the code departs from it: 201 identities added
    in the order [0], [1], .., [200], iterated in the order of
    [elements_order]. The file written has 200 entries; it keeps the
    identity added first and lacks an identity that is among the 200 added
    last. *)
Theorem save_seen_not_most_recent :
  let seen : gset string := list_to_set many_guids in
  ∃ w' l,
    TorznabMonitor._save_seen (order := elements_order) empty_world seen "tv-notifiarr"
      = Ok w' ∧
    files w' !! "/data/seen_tv-notifiarr.json" = Some (Stored l) ∧
    length l = 200%nat ∧
    "http://t/details?id=0" ∈ l ∧
    "http://t/details?id=77" ∈ TorznabMonitor.last_n 200 many_guids ∧
    "http://t/details?id=77" ∉ l.
Proof.
  intros seen.
  exists (TorznabMonitor.saved (order := elements_order) empty_world seen "tv-notifiarr").
  exists (TorznabMonitor.capped (elements seen)).
  split; [|split; [|split; [|split; [|split]]]].
  - apply save_seen_returns.
  - vm_compute. reflexivity.
  - vm_compute. reflexivity.
  - by_compute.
  - by_compute.
  - by_compute.
Qed.


(** * Further properties of the poll cycle *)

Section cycle.
Context {xpath : XPath} {order : SetOrder}.

Import TorznabMonitor.

Implicit Types (seen : gset string) (item : Element) (items : list Element).

(** *** Helper lemmas *)


Lemma seeds_clean (categories : gset string) items (g : string) :
  g ∈ (list_to_set (omap (seed categories) items) : gset string) →
  _clean_guid g = g.
Proof.
  intros (item & _ & Hseed)%elem_of_list_to_set%list_elem_of_omap.
  eapply identity_clean, seed_identity, Hseed.
Qed.


Lemma load_after_save (w : World) seen (mapping_name : string) :
  writable w = true →
  (∀ g, g ∈ seen → _clean_guid g = g) →
  (size seen ≤ 200)%nat →
  _load_seen (saved w seen mapping_name) mapping_name = Ok seen.
Proof.
  intros Hw Hclean Hsize. rewrite save_seen_writable by done.
  erewrite load_seen_stored by (simpl; apply lookup_insert_eq).
  rewrite capped_small by (by rewrite set_list_length).
  rewrite fmap_clean_fixed; [by rewrite set_list_to_set|].
  apply Forall_forall. intros g Hg%set_list_elem_of. by apply Hclean.
Qed.



Lemma string_length_app (a s : string) :
  String.length (a +:+ s) = (String.length a + String.length s)%nat.
Proof. induction a as [|c a IH]; simpl; [done|]. by rewrite IH. Qed.

Lemma append_inj_l (a b s : string) : a +:+ s = b +:+ s → a = b.
Proof.
  intros Heq.
  assert (String.length a = String.length b) as Hlen.
  { apply (f_equal String.length) in Heq.
    rewrite !string_length_app in Heq. lia. }
  revert b Heq Hlen. induction a as [|c a IH]; intros [|d b] Heq Hlen;
    try done.
  simpl in Heq, Hlen. injection Heq as -> Heq. f_equal. apply IH; [done|lia].
Qed.

Lemma seen_file_path_inj (n n' : string) :
  _get_seen_file_path n = _get_seen_file_path n' → n = n'.
Proof.
  unfold _get_seen_file_path. intros Heq.
  apply (append_inj_l _ _ ".json"). simpl in Heq. by simplify_eq.
Qed.

(** *** The store *)

(** [_save_seen], then [_load_seen] under the same mapping name, gives
    back the set that was saved, when the files can be written, the set
    holds at most 200 identities and each of them is a cleaned GUID. *)
Theorem save_then_load (w : World) seen (mapping_name : string) :
  writable w = true →
  (∀ g, g ∈ seen → _clean_guid g = g) →
  (size seen ≤ 200)%nat →
  ∃ w', _save_seen w seen mapping_name = Ok w' ∧
        _load_seen w' mapping_name = Ok seen.
Proof.
  intros Hw Hclean Hsize. exists (saved w seen mapping_name).
  split; [apply save_seen_returns|]. by apply load_after_save.
Qed.

(** With writable files [_save_seen] returns and leaves a list of at
    most 200 members of the set in the seen file, each once; with at most
    200 members in the set, every one of them is in the file. *)
Theorem save_seen_bounded (w : World) seen (mapping_name : string) :
  writable w = true →
  ∃ w' l,
    _save_seen w seen mapping_name = Ok w' ∧
    files w' !! _get_seen_file_path mapping_name = Some (Stored l) ∧
    (length l ≤ 200)%nat ∧ NoDup l ∧
    (∀ g, g ∈ l → g ∈ seen) ∧
    ((size seen ≤ 200)%nat → ∀ g, g ∈ seen → g ∈ l).
Proof.
  intros Hw. exists (saved w seen mapping_name), (capped (set_list seen)).
  split; [apply save_seen_returns|].
  rewrite save_seen_writable by done. simpl.
  split; [apply lookup_insert_eq|]. split; [apply capped_length|].
  assert (NoDup (set_list seen)) as Hnd
    by (rewrite set_list_perm; apply NoDup_elements).
  split; [|split].
  - unfold capped, last_n. destruct (Nat.ltb 200 _); [|done].
    eapply sublist_NoDup; [done|apply sublist_drop].
  - intros g Hg%capped_elem_of. by apply set_list_elem_of.
  - intros Hsize g Hg. rewrite capped_small by (by rewrite set_list_length).
    by apply set_list_elem_of.
Qed.

(** A call of [_process_items] under one mapping name leaves the seen
    file of every other mapping name as it was (for names without [/],
    for which the path of the file is the plain concatenation). *)
Theorem seen_files_isolated (w : World) items (categories : gset string)
    (mapping_name other : string) (w' : World) (matching : list Element) :
  contains "/"%char mapping_name = false →
  contains "/"%char other = false →
  other ≠ mapping_name →
  _process_items w items categories mapping_name = Ok (w', matching) →
  files w' !! _get_seen_file_path other = files w !! _get_seen_file_path other ∧
  _load_seen w' other = _load_seen w other.
Proof.
  intros _ _ Hne Hrun.
  apply process_items_inv in Hrun as (seen0 & seen' & _ & _ & ->).
  assert (files (saved w seen' mapping_name) !! _get_seen_file_path other
          = files w !! _get_seen_file_path other) as Hfile.
  { unfold saved. destruct (writable w); [|done]. simpl.
    apply lookup_insert_ne. intros Heq. by apply Hne, seen_file_path_inj. }
  split; [done|]. unfold _load_seen, read_json. by rewrite Hfile.
Qed.

(** After [_process_items] with writable files the seen file holds only
    cleaned identities, each once and at most 200 of them, whatever the
    file held before. *)
Theorem process_items_writes_identities (w : World) items
    (categories : gset string) (mapping_name : string) (w' : World)
    (matching : list Element) :
  writable w = true →
  _process_items w items categories mapping_name = Ok (w', matching) →
  ∃ l,
    files w' !! _get_seen_file_path mapping_name = Some (Stored l) ∧
    Forall (λ g, _clean_guid g = g) l ∧ NoDup l ∧ (length l ≤ 200)%nat.
Proof.
  intros Hw Hrun.
  apply process_items_inv in Hrun as (seen0 & seen' & Hload & Hloop & ->).
  pose proof (process_loop_seen categories items seen0 []) as Hseen.
  rewrite Hloop in Hseen. simpl in Hseen.
  exists (capped (set_list seen')).
  rewrite save_seen_writable by done. simpl.
  split; [apply lookup_insert_eq|].
  assert (NoDup (set_list seen')) as Hnd
    by (rewrite set_list_perm; apply NoDup_elements).
  split; [|split].
  - apply Forall_forall. intros g Hg%capped_elem_of%set_list_elem_of.
    rewrite Hseen in Hg. apply elem_of_union in Hg as [Hg|Hg].
    + by eapply load_seen_clean.
    + by eapply seeds_clean.
  - unfold capped, last_n. destruct (Nat.ltb 200 _); [|done].
    eapply sublist_NoDup; [done|apply sublist_drop].
  - apply capped_length.
Qed.

(** *** Faults of the store during a poll *)

(** When the files cannot be written a poll leaves them as they are and
    still sends the notifications it would send with writable files. *)
Theorem poll_read_only (self : TorznabMonitor.t) (w : World)
    (fetched : result (list Element)) (endpoint : TorznabEndpoint.t) :
  writable w = false →
  (poll_torznab self w fetched endpoint).1 = w ∧
  (poll_torznab self w fetched endpoint).2 =
    (poll_torznab self {| files := files w; writable := true |} fetched endpoint).2.
Proof.
  intros Hw. unfold poll_torznab.
  destruct fetched as [items|e]; [|done]. cbn [Py.bind try_except].
  set (mapping_name := TorznabEndpoint.name endpoint +:+ "-notifiarr").
  set (w1 := {| files := files w; writable := true |}).
  assert (_load_seen w1 mapping_name = _load_seen w mapping_name) as Hsame by done.
  destruct (_load_seen w mapping_name) as [seen0|e] eqn:Hload.
  - rewrite (process_items_run w _ _ _ _ Hload).
    rewrite (process_items_run w1 _ _ _ _ Hsame). simpl.
    split; [|done]. by apply save_seen_read_only.
  - unfold _process_items. rewrite Hsame, Hload. done.
Qed.

(** A seen file that holds a JSON scalar blocks the monitor: every poll
    leaves the files as they are and sends nothing, whatever the feed. *)
Theorem poll_scalar_file (self : TorznabMonitor.t) (w : World)
    (fetched : result (list Element)) (endpoint : TorznabEndpoint.t) :
  files w !! _get_seen_file_path (TorznabEndpoint.name endpoint +:+ "-notifiarr")
    = Some Scalar →
  poll_torznab self w fetched endpoint = (w, []).
Proof.
  intros Hfile. unfold poll_torznab, _process_items.
  rewrite (load_seen_scalar _ _ Hfile). by destruct fetched.
Qed.

(** When the files cannot be removed and a seen file exists,
    [_initialize_seen_items] stops at [_clear_seen]: the feed is not
    processed and the files stay as they are. *)
Theorem initialize_read_only (w : World) (fetched : result (list Element))
    (endpoint : TorznabEndpoint.t) :
  writable w = false →
  is_Some (files w !! _get_seen_file_path
                        (TorznabEndpoint.name endpoint +:+ "-notifiarr")) →
  _initialize_seen_items w fetched endpoint = (w, []).
Proof.
  intros Hw Hfile. unfold _initialize_seen_items, _clear_seen, unlink.
  rewrite bool_decide_eq_true_2 by done. by rewrite Hw.
Qed.

(** *** Polls in sequence *)



(** The notifications of a poll are sent oldest first: the items they
    are sent for form a subsequence of the fetched items in reverse
    order. *)
Theorem poll_oldest_first (self : TorznabMonitor.t) (w : World) items
    (endpoint : TorznabEndpoint.t) :
  event_item <$> (poll_torznab self w (Ok items) endpoint).2
    `sublist_of` reverse items.
Proof.
  destruct (poll_torznab self w (Ok items) endpoint) as [w' evs] eqn:Hpoll.
  cbn [snd].
  apply poll_torznab_inv in Hpoll as [[_ ->]|(items' & [= <-] & Hrun & _)].
  - apply sublist_nil_l.
  - apply process_items_inv in Hrun as (seen0 & seen' & _ & Hloop & _).
    apply process_loop_inv in Hloop as (new & Hnew & Hsub & _).
    by rewrite Hnew.
Qed.

(** What a poll writes and which items it notifies for do not depend on
    the notification mappings: an item whose notification fails is marked
    as seen all the same. In particular, when the mapping of the endpoint
    is not configured, every notification of the poll is dropped with
    [KeyError]. *)
Theorem poll_seen_regardless_of_delivery (self self' : TorznabMonitor.t)
    (w : World) (fetched : result (list Element)) (endpoint : TorznabEndpoint.t) :
  (poll_torznab self w fetched endpoint).1
    = (poll_torznab self' w fetched endpoint).1 ∧
  event_item <$> (poll_torznab self w fetched endpoint).2
    = event_item <$> (poll_torznab self' w fetched endpoint).2 ∧
  (NotificationConfig.mappings (notification_config self)
     !! (TorznabEndpoint.name endpoint +:+ "-notifiarr") = None →
   Forall (λ ev, ev = Dropped (event_item ev) KeyError)
          (poll_torznab self w fetched endpoint).2).
Proof.
  unfold poll_torznab. destruct fetched as [items|e]; [|by repeat split].
  cbn [Py.bind try_except].
  destruct (_process_items w (reverse items) _ _) as [[w1 matching]|e];
    [|by repeat split].
  cbn [Py.bind try_except fst snd]. rewrite !event_item_send.
  split; [done|]. split; [done|].
  intros Hmissing. apply Forall_fmap, Forall_forall. intros item _. simpl.
  unfold _send_notification, NotificationConfig.get_notification_data.
  by rewrite Hmissing.
Qed.

(** *** The category test *)

(** The categories of an entry intersect the configured ones exactly
    when some descendant [attr] element of the entry, in any namespace or
    in none, has the name [category] and a value among the configured
    categories. *)
Theorem category_match_iff (categories : gset string) item :
  intersection categories (_extract_categories item) ≠ ∅ ↔
  ∃ d c,
    d ∈ descendants item ∧
    tag_any_ns "attr" (tag d) = true ∧
    get d "name" = Some "category" ∧
    get d "value" = Some c ∧
    c ∈ categories.
Proof.
  assert (∀ v, v ∈ _extract_categories item ↔
               ∃ d, d ∈ descendants item ∧ tag_any_ns "attr" (tag d) = true ∧
                    get d "name" = Some "category" ∧ get d "value" = v) as Hcats.
  { intros v. unfold _extract_categories, _extract_torznab_attr, findall_attr.
    cbn [contains Ascii.eqb Bool.eqb try_except Py.bind].
    rewrite elem_of_list_to_set, list_elem_of_fmap. unfold attr_elements.
    split.
    - intros (d & -> & Hd). apply list_elem_of_In, filter_In in Hd as [Hd Htest].
      apply andb_true_iff in Htest as [Htag Hname%bool_decide_eq_true].
      exists d. by rewrite list_elem_of_In.
    - intros (d & Hd & Htag & Hname & <-). exists d. split; [done|].
      apply list_elem_of_In, filter_In. split; [by apply list_elem_of_In|].
      apply andb_true_iff. split; [done|]. by apply bool_decide_eq_true. }
  unfold intersection. split.
  - intros (c & Hc)%set_choose_L. apply elem_of_filter in Hc as [Hv Hc].
    apply Hcats in Hv as (d & Hd & Htag & Hname & Hvalue). by exists d, c.
  - intros (d & c & Hd & Htag & Hname & Hvalue & Hc) Hempty.
    assert (c ∈ filter (λ c, Some c ∈ _extract_categories item) categories) as Hin.
    { apply elem_of_filter. split; [|done]. apply Hcats. by exists d. }
    rewrite Hempty in Hin. by apply not_elem_of_empty in Hin.
Qed.

End cycle.

(** * Properties of the configuration and of the feed client *)

Section torznab_configuration.

Import TorznabConfiguration.

Lemma dict_set_fresh {V : Type} (k : string) (v : V) (d : list (string * V)) :
  k ∉ d.*1 → dict_set k v d = (d ++ [(k, v)])%list.
Proof.
  induction d as [|[k' v'] d IH]; intros Hk; [done|].
  rewrite fmap_cons in Hk. apply not_elem_of_cons in Hk as [Hne Hk].
  cbn [dict_set fst]. simpl in Hne.
  destruct (String.eqb_spec k' k) as [->|_]; [done|].
  by rewrite IH.
Qed.

Lemma from_dict_fold (items : list (string * endpoint_dict))
    (acc : list (string * TorznabEndpoint.t)) :
  NoDup (acc.*1 ++ items.*1)%list →
  fold_left
    (λ endpoints '(endpoint_name, endpoint_config),
       dict_set endpoint_name (endpoint_from_dict endpoint_config endpoint_name)
                endpoints)
    items acc
  = (acc ++ ((λ '(n, d), (n, endpoint_from_dict d n)) <$> items))%list.
Proof.
  revert acc. induction items as [|[n d] items IH]; intros acc Hnd.
  - by rewrite app_nil_r.
  - cbn [fold_left]. rewrite fmap_cons in Hnd. cbn [fst] in Hnd.
    apply NoDup_app in Hnd as (Hacc & Hdisj & Hitems).
    apply NoDup_cons in Hitems as [Hn Hitems].
    rewrite dict_set_fresh by (intros Hin; apply (Hdisj n Hin); left).
    rewrite IH.
    + by rewrite fmap_cons, <- app_assoc.
    + rewrite fmap_app. cbn [fmap list_fmap fst]. rewrite <- app_assoc.
      cbn [app]. apply NoDup_app. split; [done|]. split.
      * intros k Hk Hk'. by apply (Hdisj k Hk).
      * by apply NoDup_cons.
Qed.

(** A configuration that passes [validate] has a first endpoint, and
    that endpoint has a name, a URL and at least one category. *)
Theorem validated_first_endpoint (self : TorznabConfiguration.t) :
  validate self = true →
  ∃ endpoint,
    get_first_endpoint self = Ok endpoint ∧
    TorznabEndpoint.name endpoint ≠ "" ∧
    TorznabEndpoint.url endpoint ≠ "" ∧
    TorznabEndpoint.categories endpoint ≠ ∅.
Proof.
  unfold validate, get_first_endpoint.
  destruct (endpoints self) as [|[n endpoint] rest]; [done|].
  cbn [forallb]. intros [Hvalid _]%andb_true_iff.
  exists endpoint. split; [done|]. unfold endpoint_validate in Hvalid.
  destruct (String.eqb_spec (TorznabEndpoint.name endpoint) ""); [done|].
  destruct (String.eqb_spec (TorznabEndpoint.url endpoint) ""); [done|].
  case_bool_decide; [done|]. done.
Qed.

(** The endpoint built from a dict of the file passes [validate] exactly
    when its name is not empty and the dict has a URL that is not empty
    and a list of categories that is not empty; the poll interval plays
    no part. *)
Theorem endpoint_from_dict_valid (d : endpoint_dict) (endpoint_name : string) :
  endpoint_validate (endpoint_from_dict d endpoint_name) = true ↔
  endpoint_name ≠ "" ∧
  (∃ u, url d = Some u ∧ u ≠ "") ∧
  (∃ cs, categories d = Some cs ∧ cs ≠ []).
Proof.
  unfold endpoint_validate, endpoint_from_dict. cbn.
  destruct (String.eqb_spec endpoint_name "") as [->|Hname].
  { split; [done|]. by intros [? _]. }
  destruct (url d) as [u|]; cbn.
  2: { split; [done|]. by intros (_ & (u & ? & _) & _). }
  destruct (String.eqb_spec u "") as [->|Hurl].
  { split; [done|]. by intros (_ & (u & [= <-] & ?) & _). }
  destruct (categories d) as [[|c cs]|]; cbn.
  - split; [done|]. by intros (_ & _ & (cs & [= <-] & ?)).
  - rewrite bool_decide_eq_false_2 by set_solver.
    split; [|by destruct (Z.ltb _ 60)].
    intros _. split; [done|]. split; [by exists u|]. by exists (c :: cs).
  - split; [done|]. by intros (_ & _ & (cs & ? & _)).
Qed.

(** [from_dict] keeps the endpoints of the file in their order, each
    built from its dict and named by its key; so the endpoint
    [get_first_endpoint] returns is the first of the file, and a file
    without endpoints makes it raise [ValueError] and fails [validate]. *)
Theorem from_dict_endpoints (config : config_dict) :
  let items :=
    default [] (endpoints_items (default (mk_torznab_dict None) (torznab config))) in
  NoDup (items.*1) →
  endpoints (from_dict config) = (λ '(n, d), (n, endpoint_from_dict d n)) <$> items ∧
  (∀ n d rest, items = (n, d) :: rest →
     get_first_endpoint (from_dict config) = Ok (endpoint_from_dict d n)) ∧
  (items = [] →
     get_first_endpoint (from_dict config) = Raise ValueError ∧
     validate (from_dict config) = false).
Proof.
  intros items Hnd.
  assert (endpoints (from_dict config)
          = (λ '(n, d), (n, endpoint_from_dict d n)) <$> items) as Heq.
  { unfold from_dict. cbn [endpoints]. fold items. by rewrite from_dict_fold. }
  split; [done|]. unfold get_first_endpoint, validate. rewrite Heq. split.
  - by intros n d rest ->.
  - by intros ->.
Qed.

End torznab_configuration.

Section mapping_file.
Context {xpath : XPath}.

Import MappingFile.

Lemma from_dict_outcome (mapping_dict : gmap string string) :
  match from_dict mapping_dict with
  | Ok m => mapping_dict !! "type" = Some (NotificationMapping.type m)
  | Raise e => e = KeyError ∧ mapping_dict !! "type" = None
  end.
Proof. unfold from_dict. by destruct (mapping_dict !! "type"). Qed.

Lemma load_fields_outcome (fields : list (string * gmap string string)) :
  match load_fields fields with
  | Ok ms =>
      typed_fields fields ∧
      Forall2 (λ field m, field.1 = m.1 ∧ from_dict field.2 = Ok m.2) fields ms
  | Raise e => e = KeyError ∧ ¬ typed_fields fields
  end.
Proof.
  induction fields as [|[field fm] fields IH]; cbn [load_fields].
  - split; constructor.
  - pose proof (from_dict_outcome fm) as Hfm.
    destruct (from_dict fm) as [m|e] eqn:Hm; cbn [Py.bind].
    + destruct (load_fields fields) as [ms|e]; cbn [Py.bind].
      * destruct IH as [Htyped Hall]. split.
        -- constructor; [simpl; by rewrite Hfm|done].
        -- by constructor.
      * destruct IH as [-> Hnot]. split; [done|].
        intros Htyped. apply Hnot. by apply Forall_cons in Htyped as [_ ?].
    + destruct Hfm as [-> Hnone]. split; [done|].
      intros Htyped. apply Forall_cons in Htyped as [Hsome _].
      simpl in Hsome. rewrite Hnone in Hsome. by destruct Hsome.
Qed.

Lemma load_mappings_raise (items : list (string * list (string * gmap string string)))
    (e : exn) :
  fold_left load_mapping items (Raise e) = Raise e.
Proof. by induction items. Qed.

Lemma load_mappings_outcome
    (items : list (string * list (string * gmap string string)))
    (acc : gmap string (list (string * NotificationMapping.t))) :
  match fold_left load_mapping items (Ok acc) with
  | Ok mappings =>
      Forall (λ entry, typed_fields entry.2) items ∧
      (∀ name, name ∉ items.*1 → mappings !! name = acc !! name) ∧
      (NoDup (items.*1) →
       ∀ name fields, (name, fields) ∈ items →
         ∃ ms, load_fields fields = Ok ms ∧ mappings !! name = Some ms)
  | Raise e => e = KeyError ∧ ¬ Forall (λ entry, typed_fields entry.2) items
  end.
Proof.
  revert acc. induction items as [|[name fields] items IH]; intros acc.
  - cbn. split; [done|]. split; [done|]. intros _ ? ? Hin.
    by apply elem_of_nil in Hin.
  - cbn [fold_left]. unfold load_mapping at 2. cbn [Py.bind fst snd].
    pose proof (load_fields_outcome fields) as Hfields.
    destruct (load_fields fields) as [ms|e] eqn:Hms; cbn [Py.bind].
    + specialize (IH (<[name := ms]> acc)).
      destruct (fold_left load_mapping items _) as [mappings|e].
      * destruct IH as (Htyped & Hother & Hlookup).
        destruct Hfields as [Hfields _]. split; [by constructor|]. split.
        -- intros name' Hnot. rewrite fmap_cons in Hnot.
           apply not_elem_of_cons in Hnot as [Hne Hnot].
           rewrite Hother by done. by apply lookup_insert_ne.
        -- intros Hnd name' fields' Hin. rewrite fmap_cons in Hnd.
           apply NoDup_cons in Hnd as [Hfresh Hnd].
           apply elem_of_cons in Hin as [[= -> ->]|Hin].
           ++ exists ms. split; [done|]. rewrite Hother by done.
              apply lookup_insert_eq.
           ++ by apply Hlookup.
      * destruct IH as [-> Hnot]. split; [done|].
        intros Htyped. apply Hnot. by apply Forall_cons in Htyped as [_ ?].
    + rewrite load_mappings_raise. destruct Hfields as [-> Hnot].
      split; [done|]. intros Htyped. apply Hnot.
      by apply Forall_cons in Htyped as [? _].
Qed.

(** Loading the mappings succeeds exactly when every field mapping of
    the file has the key [type]; otherwise the constructor of
    [NotificationConfig] raises [KeyError]. *)
Theorem load_mappings_needs_type (file : mapping_file) :
  let items := default [] (mappings_items file) in
  match init (Ok file) with
  | Ok _ => Forall (λ entry, typed_fields entry.2) items
  | Raise e => e = KeyError ∧ ¬ Forall (λ entry, typed_fields entry.2) items
  end.
Proof.
  intros items. unfold init, _load_mappings. cbn [Py.bind]. fold items.
  pose proof (load_mappings_outcome items ∅) as Hout.
  destruct (fold_left load_mapping items (Ok ∅)) as [mappings|e]; cbn [Py.bind].
  - by destruct Hout as [? _].
  - done.
Qed.

(** In the configuration loaded from a file, a mapping name of the file
    gives the fields of that mapping, in the order of the file; for a
    name that is not in the file, and so for every name when the key
    [mappings] is missing, [get_notification_data] raises [KeyError]. *)
Theorem loaded_mappings_lookup (file : mapping_file)
    (config : NotificationConfig.t) :
  let items := default [] (mappings_items file) in
  NoDup (items.*1) →
  init (Ok file) = Ok config →
  (∀ name fields, (name, fields) ∈ items →
     ∃ ms, NotificationConfig.mappings config !! name = Some ms ∧
           ms.*1 = fields.*1 ∧
           Forall2 (λ field m, from_dict field.2 = Ok m.2) fields ms) ∧
  (∀ name item, name ∉ items.*1 →
     NotificationConfig.get_notification_data config item name = Raise KeyError).
Proof.
  intros items Hnd. unfold init, _load_mappings. cbn [Py.bind]. fold items.
  pose proof (load_mappings_outcome items ∅) as Hout.
  destruct (fold_left load_mapping items (Ok ∅)) as [mappings|e]; [|done].
  cbn [Py.bind]. intros [= <-]. destruct Hout as (_ & Hother & Hlookup).
  cbn [NotificationConfig.mappings]. split.
  - intros name fields Hin.
    destruct (Hlookup Hnd name fields Hin) as (ms & Hms & Hfound).
    exists ms. split; [done|].
    pose proof (load_fields_outcome fields) as Hfields. rewrite Hms in Hfields.
    destruct Hfields as [_ Hall]. split.
    + clear -Hall. induction Hall as [|[f fm] [f' m] fields ms [Hf _] _ IH]; [done|].
      rewrite !fmap_cons. simpl in *. by rewrite Hf, IH.
    + eapply Forall2_impl; [done|]. by intros ? ? [_ ?].
  - intros name item Hnot. unfold NotificationConfig.get_notification_data.
    cbn [NotificationConfig.mappings]. by rewrite (Hother name Hnot).
Qed.

(** The keys of the payload are exactly the fields of a known type: a
    field is in the payload when, and only when, the mapping has an
    entry for it whose type is [static], [xml_tag] or [torznab_attr]. *)
Theorem payload_keys (self : NotificationConfig.t) (item : Element)
    (mapping_name : string) (mapping : list (string * NotificationMapping.t))
    (data : gmap string value) :
  NotificationConfig.mappings self !! mapping_name = Some mapping →
  NotificationConfig.get_notification_data self item mapping_name = Ok data →
  ∀ field,
    is_Some (data !! field) ↔
    ∃ fm, (field, fm) ∈ mapping ∧
          NotificationMapping.type fm ∈ ["static"; "xml_tag"; "torznab_attr"].
Proof.
  intros Hm. unfold NotificationConfig.get_notification_data. rewrite Hm.
  intros [= <-] field. clear Hm.
  assert (∀ fm, NotificationMapping.type fm ∈ ["static"; "xml_tag"; "torznab_attr"] ↔
                ∃ v, NotificationConfig.field_value item fm = Ok (Some v)) as Hknown.
  { intros fm. unfold NotificationConfig.field_value.
    destruct (String.eqb_spec (NotificationMapping.type fm) "static") as [->|?].
    { split; [by eexists|set_solver]. }
    destruct (String.eqb_spec (NotificationMapping.type fm) "xml_tag") as [->|?].
    { split; [by eexists|set_solver]. }
    destruct (String.eqb_spec (NotificationMapping.type fm) "torznab_attr") as [->|?].
    { split; [by eexists|set_solver]. }
    split; [set_solver|by intros [? ?]]. }
  assert (∀ data0 : gmap string value,
            is_Some (fold_left (NotificationConfig.extract_field item) mapping data0
                       !! field) ↔
            is_Some (data0 !! field) ∨
            ∃ fm, (field, fm) ∈ mapping ∧
                  ∃ v, NotificationConfig.field_value item fm = Ok (Some v)) as Hfold.
  { induction mapping as [|[f0 m0] mapping IH]; intros data0.
    - cbn. split; [by left|]. intros [?|(fm & Hin & _)]; [done|].
      by apply elem_of_nil in Hin.
    - cbn [fold_left]. rewrite IH.
      destruct (field_value_no_raise item m0) as [o Ho].
      destruct (decide (field = f0)) as [->|Hne].
      + rewrite extract_field_same. unfold NotificationConfig.field_outcome.
        rewrite Ho. destruct o as [v|].
        * split; [|by left]. intros _. right. exists m0.
          split; [left|by exists v].
        * split.
          -- intros [?|(fm & Hin & Hv)]; [by left|]. right. exists fm.
             split; [by right|done].
          -- intros [?|(fm & Hin & v & Hv)]; [by left|].
             apply elem_of_cons in Hin as [[= ->]|Hin]; [congruence|].
             right. exists fm. split; [done|by exists v].
      + rewrite extract_field_other by done. split.
        * intros [?|(fm & Hin & Hv)]; [by left|]. right. exists fm.
          split; [by right|done].
        * intros [?|(fm & Hin & Hv)]; [by left|].
          apply elem_of_cons in Hin as [[= ? ?]|Hin]; [done|].
          right. by exists fm. }
  rewrite Hfold. rewrite lookup_empty. split.
  - intros [[? ?]|(fm & Hin & Hv)]; [done|]. exists fm. split; [done|].
    by apply Hknown.
  - intros (fm & Hin & Hty). right. exists fm. split; [done|]. by apply Hknown.
Qed.

End mapping_file.

Section file_to_payload.
Context {xpath : XPath}.

Import MappingFile.

Lemma loaded_field (fields : list (string * gmap string string))
    (ms : list (string * NotificationMapping.t))
    (field : string) (fm : gmap string string) :
  load_fields fields = Ok ms →
  (field, fm) ∈ fields →
  ms.*1 = fields.*1 ∧
  ∃ m, (field, m) ∈ ms ∧ from_dict fm = Ok m.
Proof.
  intros Hms Hin. pose proof (load_fields_outcome fields) as Hout.
  rewrite Hms in Hout. destruct Hout as [_ Hall]. split.
  - clear -Hall. induction Hall as [|[f d] [f' m] fields ms [Hf _] _ IH]; [done|].
    rewrite !fmap_cons. simpl in *. by rewrite Hf, IH.
  - apply list_elem_of_lookup in Hin as [i Hi].
    destruct (Forall2_lookup_l _ _ _ _ _ Hall Hi) as ([f' m] & Hi' & Hf & Hm).
    simpl in *. subst f'. exists m. split; [|done].
    by eapply list_elem_of_lookup_2.
Qed.

(** From the mapping file to the payload. For a field of a mapping of
    the file: a [static] field gives the string under [value], or [None]
    when that key is missing; an [xml_tag] field without the key [path]
    gives [None]; a [torznab_attr] field whose [select] is missing, or is
    anything but ['first'], gives the whole list of values (the first
    value only under ['first']), and [None] when no attribute matches. *)
Theorem loaded_field_payload (file : mapping_file) (config : NotificationConfig.t)
    (item : Element) (name : string) (fields : list (string * gmap string string))
    (field : string) (fm : gmap string string) :
  let items := default [] (mappings_items file) in
  NoDup (items.*1) →
  init (Ok file) = Ok config →
  (name, fields) ∈ items →
  NoDup (fields.*1) →
  (field, fm) ∈ fields →
  ∃ data,
    NotificationConfig.get_notification_data config item name = Ok data ∧
    (fm !! "type" = Some "static" →
       data !! field = Some (of_option (fm !! "value"))) ∧
    (fm !! "type" = Some "xml_tag" → fm !! "path" = None →
       data !! field = Some VNone) ∧
    (fm !! "type" = Some "torznab_attr" →
     fm !! "select" ≠ Some "first" →
     contains "'"%char (format_opt (fm !! "name")) = false →
       data !! field =
         Some (let values := (λ attr, get attr "value")
                               <$> attr_elements item (format_opt (fm !! "name")) in
               match values with
               | [] => VNone
               | _ :: _ => VList values
               end)).
Proof.
  intros items Hnd. unfold init, _load_mappings. cbn [Py.bind]. fold items.
  pose proof (load_mappings_outcome items ∅) as Hout.
  destruct (fold_left load_mapping items (Ok ∅)) as [mappings|e]; [|done].
  cbn [Py.bind]. intros [= <-] Hin Hndf Hfield.
  destruct Hout as (_ & _ & Hlookup).
  destruct (Hlookup Hnd name fields Hin) as (ms & Hms & Hfound).
  destruct (loaded_field _ _ _ _ Hms Hfield) as (Hkeys & m & Hm & Hfrom).
  unfold NotificationConfig.get_notification_data.
  cbn [NotificationConfig.mappings]. rewrite Hfound.
  eexists. split; [done|].
  rewrite <- Hkeys in Hndf.
  rewrite (fold_extract_lookup _ _ _ _ _ Hndf Hm).
  unfold from_dict in Hfrom.
  destruct (fm !! "type") as [ty|] eqn:Hty; [|done].
  injection Hfrom as <-.
  unfold NotificationConfig.field_outcome, NotificationConfig.field_value.
  cbn [NotificationMapping.type NotificationMapping.value NotificationMapping.path
       NotificationMapping.name NotificationMapping.select].
  split; [|split].
  - by intros [= ->].
  - intros [= ->] ->. done.
  - intros [= ->] Hsel Hq. cbn [String.eqb Ascii.eqb Bool.eqb].
    unfold NotificationConfig._extract_torznab_attr, findall_attr.
    rewrite Hq. cbn [Py.bind try_except].
    destruct (_ <$> attr_elements item _) as [|v vs]; [done|].
    by rewrite bool_decide_eq_false_2.
Qed.

End file_to_payload.

(** ** The feed client *)

Lemma iter_descendants (e : Element) : iter e = e :: descendants e.
Proof. by destruct e. Qed.

Lemma filter_items_below (entries : list Element) :
  Forall (λ e, Forall (λ d, tag d ≠ "item") (descendants e)) entries →
  List.filter (λ d, String.eqb (tag d) "item") (flat_map iter entries)
    = List.filter (λ d, String.eqb (tag d) "item") entries.
Proof.
  induction 1 as [|e entries He _ IH]; [done|].
  cbn [flat_map]. rewrite iter_descendants, <- app_comm_cons.
  cbn [List.filter]. rewrite List.filter_app, IH.
  assert (List.filter (λ d, String.eqb (tag d) "item") (descendants e) = [])
    as ->; [|done].
  induction He as [|d ds Hd _ IHd]; [done|].
  cbn [List.filter]. by apply String.eqb_neq in Hd as ->.
Qed.

(** [_fetch_torznab_feed] on a parsed document of the usual shape, a
    root with one [channel] whose children hold no [item] below them:
    the entries are the [item] children of the channel, in the order of
    the document; what the request or the parser raised is raised. *)
Theorem fetch_channel_items (root_tag channel_tag : string)
    (root_attrib channel_attrib : list (string * string))
    (root_text channel_text : option string) (entries : list Element) :
  channel_tag ≠ "item" →
  Forall (λ e, Forall (λ d, tag d ≠ "item") (descendants e)) entries →
  let root :=
    mkElement root_tag root_attrib root_text
      [mkElement channel_tag channel_attrib channel_text entries] in
  _fetch_torznab_feed (Ok root)
    = Ok (root, List.filter (λ e, String.eqb (tag e) "item") entries) ∧
  ∀ e, _fetch_torznab_feed (Raise e) = Raise e.
Proof.
  intros Hchannel Hentries root. split; [|done].
  unfold _fetch_torznab_feed. cbn [Py.bind]. do 2 f_equal.
  unfold root, descendants. cbn [children flat_map iter].
  rewrite app_nil_r. cbn [List.filter tag].
  apply String.eqb_neq in Hchannel as ->.
  by apply filter_items_below.
Qed.

(** ** More than 200 matching identities *)

Section overflow.
Context {xpath : XPath} {order : SetOrder}.

Import TorznabMonitor.




End overflow.

(** [_clean_guid] is idempotent: cleaning a cleaned GUID changes
    nothing. *)
Theorem clean_guid_idempotent (guid : string) :
  _clean_guid (_clean_guid guid) = _clean_guid guid.
Proof. apply clean_guid_idemp. Qed.

(** ** The further properties at concrete inputs *)

Lemma save_then_load_witness :
  ∃ w',
    TorznabMonitor._save_seen (order := elements_order) empty_world
      {[ "http://t/details?id=2" ]} "tv-notifiarr" = Ok w' ∧
    TorznabMonitor._load_seen w' "tv-notifiarr" = Ok {[ "http://t/details?id=2" ]}.
Proof.
  apply (save_then_load (order := elements_order) empty_world
           {[ "http://t/details?id=2" ]} "tv-notifiarr").
  - reflexivity.
  - intros g ->%elem_of_singleton. reflexivity.
  - vm_compute. lia.
Defined.

Lemma save_seen_bounded_witness :
  ∃ w' l,
    TorznabMonitor._save_seen (order := elements_order) empty_world
      (list_to_set many_guids) "tv-notifiarr" = Ok w' ∧
    files w' !! "/data/seen_tv-notifiarr.json" = Some (Stored l) ∧
    (length l ≤ 200)%nat ∧ NoDup l ∧
    (∀ g, g ∈ l → g ∈ (list_to_set many_guids : gset string)) ∧
    ((size (list_to_set many_guids : gset string) ≤ 200)%nat →
     ∀ g, g ∈ (list_to_set many_guids : gset string) → g ∈ l).
Proof.
  apply (save_seen_bounded (order := elements_order) empty_world
           (list_to_set many_guids) "tv-notifiarr").
  reflexivity.
Defined.

Lemma seen_files_isolated_witness :
  let w' :=
    {| files := {[ "/data/seen_movies-notifiarr.json" := Stored ["http://t/details?id=2"];
                   "/data/seen_tv-notifiarr.json" :=
                     Stored ["http://t/details?id=2"; "http://t/details?id=9"] ]};
       writable := true |} in
  files w' !! TorznabMonitor._get_seen_file_path "tv-notifiarr"
    = files stored_world !! TorznabMonitor._get_seen_file_path "tv-notifiarr" ∧
  TorznabMonitor._load_seen w' "tv-notifiarr"
    = TorznabMonitor._load_seen stored_world "tv-notifiarr".
Proof.
  intros w'.
  apply (seen_files_isolated (xpath := strict_xpath) (order := elements_order)
           stored_world [item_B] (TorznabEndpoint.categories tv_endpoint)
           "movies-notifiarr" "tv-notifiarr" w' [item_B]).
  - reflexivity.
  - reflexivity.
  - by_compute.
  - vm_compute. reflexivity.
Defined.

Lemma process_items_writes_identities_witness :
  ∃ l,
    files {| files := {[ "/data/seen_tv-notifiarr.json" :=
                           Stored ["http://t/details?id=3"; "http://t/details?id=9";
                                   "http://t/details?id=2"] ]};
             writable := true |}
      !! "/data/seen_tv-notifiarr.json" = Some (Stored l) ∧
    Forall (λ g, _clean_guid g = g) l ∧ NoDup l ∧ (length l ≤ 200)%nat.
Proof.
  apply (process_items_writes_identities (xpath := strict_xpath)
           (order := elements_order)
           stored_world [item_A; item_B; item_C]
           (TorznabEndpoint.categories tv_endpoint) "tv-notifiarr" _ [item_C]).
  - reflexivity.
  - vm_compute. reflexivity.
Defined.

Lemma poll_read_only_witness :
  let poll :=
    TorznabMonitor.poll_torznab (xpath := strict_xpath) (order := elements_order)
      tv_monitor in
  (poll read_only_world (Ok [item_B]) tv_endpoint).1 = read_only_world ∧
  (poll read_only_world (Ok [item_B]) tv_endpoint).2
    = (poll {| files := files read_only_world; writable := true |}
            (Ok [item_B]) tv_endpoint).2.
Proof.
  intros poll.
  apply (poll_read_only (xpath := strict_xpath) (order := elements_order)
           tv_monitor read_only_world (Ok [item_B]) tv_endpoint).
  reflexivity.
Defined.

Lemma poll_scalar_file_witness :
  TorznabMonitor.poll_torznab (xpath := strict_xpath) (order := elements_order)
    tv_monitor scalar_world (Ok [item_B]) tv_endpoint = (scalar_world, []).
Proof.
  apply (poll_scalar_file (xpath := strict_xpath) (order := elements_order)
           tv_monitor scalar_world (Ok [item_B]) tv_endpoint).
  reflexivity.
Defined.

Lemma initialize_read_only_witness :
  TorznabMonitor._initialize_seen_items (xpath := strict_xpath)
    (order := elements_order) read_only_world (Ok [item_B]) tv_endpoint
    = (read_only_world, []).
Proof.
  apply (initialize_read_only (xpath := strict_xpath) (order := elements_order)
           read_only_world (Ok [item_B]) tv_endpoint).
  - reflexivity.
  - by_compute.
Defined.




Lemma cap_forgets_witness :
  ∃ w1 matching1 w2 matching2,
    TorznabMonitor._process_items (xpath := strict_xpath) (order := elements_order)
      empty_world big_feed (TorznabEndpoint.categories tv_endpoint) "tv-notifiarr"
      = Ok (w1, matching1) ∧
    TorznabMonitor._process_items (xpath := strict_xpath) (order := elements_order)
      w1 big_feed (TorznabEndpoint.categories tv_endpoint) "tv-notifiarr"
      = Ok (w2, matching2) ∧
    ∃ item1 item2 g,
      item1 ∈ matching1 ∧ item2 ∈ matching2 ∧
      TorznabMonitor.identity item1 = Some g ∧
      TorznabMonitor.identity item2 = Some g.
Proof.
  apply (cap_forgets (xpath := strict_xpath) (order := elements_order)
           empty_world big_feed (TorznabEndpoint.categories tv_endpoint)
           "tv-notifiarr").
  - reflexivity.
  - reflexivity.
  - vm_compute. lia.
Defined.

Lemma validated_first_endpoint_witness :
  let config :=
    TorznabConfiguration.mk
      [("tv", TorznabConfiguration.endpoint_from_dict tv_endpoint_dict "tv")] in
  ∃ endpoint,
    TorznabConfiguration.get_first_endpoint config = Ok endpoint ∧
    TorznabEndpoint.name endpoint ≠ "" ∧
    TorznabEndpoint.url endpoint ≠ "" ∧
    TorznabEndpoint.categories endpoint ≠ ∅.
Proof.
  intros config. apply (validated_first_endpoint config).
  vm_compute. reflexivity.
Defined.

Lemma from_dict_endpoints_witness :
  TorznabConfiguration.endpoints (TorznabConfiguration.from_dict tv_config_dict)
    = [("tv", TorznabConfiguration.endpoint_from_dict tv_endpoint_dict "tv");
       ("movies", TorznabConfiguration.endpoint_from_dict movies_endpoint_dict "movies")] ∧
  TorznabConfiguration.get_first_endpoint (TorznabConfiguration.from_dict tv_config_dict)
    = Ok (TorznabConfiguration.endpoint_from_dict tv_endpoint_dict "tv").
Proof.
  assert (NoDup (["tv"; "movies"] : list string)) as Hnd by by_compute.
  destruct (from_dict_endpoints tv_config_dict Hnd) as (Hall & Hfirst & _).
  split; [exact Hall|]. exact (Hfirst _ _ _ eq_refl).
Defined.

Lemma loaded_mappings_lookup_witness :
  let config :=
    match MappingFile.init (Ok tv_mapping_file) with
    | Ok config => config
    | Raise _ => NotificationConfig.mk ∅
    end in
  (∃ ms, NotificationConfig.mappings config !! "tv-notifiarr" = Some ms ∧
         ms.*1 = ["title"; "event"; "categories"; "link"] ∧
         Forall2 (λ field m, MappingFile.from_dict field.2 = Ok m.2) tv_file_fields ms) ∧
  NotificationConfig.get_notification_data (xpath := strict_xpath)
    config item_B "movies-notifiarr" = Raise KeyError.
Proof.
  intros config.
  assert (NoDup (["tv-notifiarr"] : list string)) as Hnd by by_compute.
  destruct (loaded_mappings_lookup (xpath := strict_xpath)
              tv_mapping_file config Hnd eq_refl) as (Hfound & Hother).
  split.
  - apply (Hfound "tv-notifiarr" tv_file_fields). apply list_elem_of_here.
  - apply Hother. by_compute.
Defined.

Lemma payload_keys_witness :
  let data :=
    match NotificationConfig.get_notification_data (xpath := strict_xpath)
            tv_config item_B "tv-notifiarr" with
    | Ok data => data
    | Raise _ => ∅
    end in
  is_Some (data !! "extra") ↔
  ∃ fm, ("extra", fm) ∈ tv_mapping ∧
        NotificationMapping.type fm ∈ ["static"; "xml_tag"; "torznab_attr"].
Proof.
  intros data.
  apply (payload_keys (xpath := strict_xpath) tv_config item_B "tv-notifiarr"
           tv_mapping data).
  - reflexivity.
  - reflexivity.
Defined.

Lemma loaded_field_payload_witness :
  let config :=
    match MappingFile.init (Ok tv_mapping_file) with
    | Ok config => config
    | Raise _ => NotificationConfig.mk ∅
    end in
  ∃ data,
    NotificationConfig.get_notification_data (xpath := strict_xpath)
      config item_D "tv-notifiarr" = Ok data ∧
    data !! "categories" = Some (VList [Some "5000"; Some "5040"]).
Proof.
  intros config.
  assert (NoDup (["tv-notifiarr"] : list string)) as Hnd by by_compute.
  assert (NoDup (tv_file_fields.*1)) as Hfields by by_compute.
  assert (("categories",
           ({[ "type" := "torznab_attr"; "name" := "category" ]} : gmap string string))
          ∈ tv_file_fields) as Hin.
  { apply list_elem_of_further, list_elem_of_further, list_elem_of_here. }
  destruct (loaded_field_payload (xpath := strict_xpath) tv_mapping_file config
              item_D "tv-notifiarr" tv_file_fields "categories" _
              Hnd eq_refl ltac:(apply list_elem_of_here) Hfields Hin)
    as (data & Hdata & _ & _ & Hattr).
  exists data. split; [exact Hdata|].
  apply Hattr.
  - reflexivity.
  - by_compute.
  - reflexivity.
Defined.

Lemma fetch_channel_items_witness :
  _fetch_torznab_feed (Ok rss_document) = Ok (rss_document, [item_B; item_A]).
Proof.
  apply (fetch_channel_items "rss" "channel" [("version", "2.0")] [] None None
           [mkElement "title" [] (Some "feed") []; item_B; item_A]).
  - by_compute.
  - repeat constructor; by_compute.
Defined.
